(** * Azure architecture dashboard: classification, relationship graph and
      filtered views

    A shallow embedding of

    - the embedded script of [azure_dashboard_generator.py] (the dashboard
      that classifies resources, infers relationship edges from resource
      properties, filters by category and lists security rules), and
    - [categorize_resources] of [azure_modern_png_generator.py] (the
      keyword classifier of the PNG generator),

    followed by the properties established for them.

    Modelling conventions.

    - Strings are [string] (sequences of 8-bit characters).  [toLowerCase]
      and Python's [lower] are modelled on ASCII letters; other characters
      are left unchanged.
    - JSON values are the tagged type [json].  Objects are association
      lists in the order in which [for ... in] enumerates their keys;
      numbers are the integer-valued ones.
    - JavaScript [Map] and [Set] are stdpp's [gmap] and [gset].
    - [getIcon] is called by the script but defined nowhere in the
      template, so the call raises a [ReferenceError] on the page as it
      is generated.  The model takes what the page binds the name to as
      a parameter of type [option (string -> string)]; [None] is the
      generated page.
    - A fragment of the script that can raise an exception returns an
      [outcome]; a handler that raises leaves the page as it was when
      the exception occurred. *)

From Stdlib Require Import ZArith Ascii String.
From stdpp Require Import base option list gmap strings sorting.

Set Warnings "-register-all,-clear-no-such-hyp".
Open Scope string_scope.
Open Scope list_scope.

(* ===================================================================== *)
(** * Part I: definitions *)
(* ===================================================================== *)

(** ** Strings *)

Module Str.

(** One character of [toLowerCase] / [lower]: A-Z go to a-z. *)
Definition lowerAscii (c : ascii) : ascii :=
  let n := N_of_ascii c in
  if ((65 <=? n) && (n <=? 90))%N then ascii_of_N (n + 32) else c.

(** [s.toLowerCase()] and Python's [s.lower()]. *)
Fixpoint toLowerCase (s : string) : string :=
  match s with
  | EmptyString => EmptyString
  | String c s' => String (lowerAscii c) (toLowerCase s')
  end.

(** [s.startsWith(p)]. *)
Fixpoint startsWith (s p : string) : bool :=
  match p with
  | EmptyString => true
  | String a p' =>
      match s with
      | EmptyString => false
      | String b s' => if Ascii.eqb a b then startsWith s' p' else false
      end
  end.

(** Python's [kw in s]: [kw] occurs somewhere in [s]. *)
Fixpoint includes (s kw : string) : bool :=
  startsWith s kw ||
  match s with
  | EmptyString => false
  | String _ s' => includes s' kw
  end.

(** The characters of a string as one-character strings: what
    [for (const key in s)] followed by [s[key]] reads from a string. *)
Fixpoint chars (s : string) : list string :=
  match s with
  | EmptyString => []
  | String c s' => String c EmptyString :: chars s'
  end.

End Str.

(** ** JSON values *)

Inductive json : Type :=
| JNull
| JBool (b : bool)
| JNum (n : Z)
| JStr (s : string)
| JArr (items : list json)
| JObj (fields : list (string * json)).

Module Json.

(** [v[k]] for an own property of a plain object; [None] is [undefined].
    The keys read by the script ([securityRules], [defaultSecurityRules],
    [properties], [priority]) are not properties of arrays, strings or
    of the prototypes. *)
Fixpoint assoc (k : string) (fields : list (string * json)) : option json :=
  match fields with
  | [] => None
  | (k', v) :: rest => if String.eqb k k' then Some v else assoc k rest
  end.

Definition getProp (k : string) (v : json) : option json :=
  match v with
  | JObj fields => assoc k fields
  | _ => None
  end.

(** JavaScript truthiness of a defined value. *)
Definition truthy (v : json) : bool :=
  match v with
  | JNull => false
  | JBool b => b
  | JNum n => negb (n =? 0)%Z
  | JStr s => negb (String.eqb s "")
  | JArr _ | JObj _ => true
  end.

(** [x || []] where [x] may be [undefined]. *)
Definition orEmptyArray (x : option json) : json :=
  match x with
  | Some v => if truthy v then v else JArr []
  | None => JArr []
  end.

(** The string leaves of a value: the value itself when it is a string,
    and the leaves of the members of mappings and sequences, depth first
    in enumeration order. *)
Fixpoint leaves (v : json) : list string :=
  match v with
  | JStr s => [s]
  | JArr items => flat_map leaves items
  | JObj fields => flat_map (fun kv => leaves (snd kv)) fields
  | _ => []
  end.

(** The string leaves nested in a resource's [properties]: the leaves of
    the members of the top-level mapping or sequence. *)
Definition nestedLeaves (props : option json) : list string :=
  match props with
  | Some (JObj fields) => flat_map (fun kv => leaves (snd kv)) fields
  | Some (JArr items) => flat_map leaves items
  | _ => []
  end.

End Json.

(** ** The keyword classifier of the PNG generator
    ([azure_modern_png_generator.py], [categorize_resources]) *)

Module Png.

(** The keys of the [categories] dictionary, in insertion order. *)
Definition category_keys : list string :=
  ["compute"; "storage"; "database"; "network"; "security"; "analytics";
   "ai_ml"; "integration"; "monitoring"; "other"].

(** [type_mapping], in insertion order. *)
Definition type_mapping : list (string * list string) :=
  [("compute", ["microsoft.compute"; "microsoft.containerservice";
                "microsoft.containerinstance"; "microsoft.web"]);
   ("storage", ["microsoft.storage"]);
   ("database", ["microsoft.sql"; "microsoft.documentdb";
                 "microsoft.dbformysql"; "microsoft.dbforpostgresql";
                 "microsoft.cache"]);
   ("network", ["microsoft.network"]);
   ("security", ["microsoft.keyvault"; "microsoft.security"]);
   ("analytics", ["microsoft.synapse"; "microsoft.datafactory";
                  "microsoft.databricks"; "microsoft.streamanalytics"]);
   ("ai_ml", ["microsoft.cognitiveservices";
              "microsoft.machinelearningservices"]);
   ("integration", ["microsoft.logic"; "microsoft.servicebus";
                    "microsoft.eventgrid"; "microsoft.eventhub"]);
   ("monitoring", ["microsoft.insights"; "microsoft.operationalinsights"])].

(** [any(keyword in resource_type_lower for keyword in keywords)]. *)
Definition any_keyword (resource_type_lower : string) (keywords : list string) : bool :=
  existsb (Str.includes resource_type_lower) keywords.

(** The inner [for category, keywords in type_mapping.items()] loop with
    its [break]: the state is the category chosen so far, [None] while
    [categorized] is still [False]. *)
Definition rule_step (resource_type_lower : string)
    (chosen : option string) (rule : string * list string) : option string :=
  match chosen with
  | Some c => Some c
  | None => if any_keyword resource_type_lower (snd rule) then Some (fst rule) else None
  end.

(** The bucket one [resource_type] of [by_type] is added to, for a given
    rule table. *)
Definition classify_with (rules : list (string * list string)) (resource_type : string) : string :=
  let resource_type_lower := Str.toLowerCase resource_type in
  match fold_left (rule_step resource_type_lower) rules None with
  | Some category => category
  | None => "other"
  end.

Definition classify : string -> string := classify_with type_mapping.

Section Buckets.
Context {R : Type}.

(** [categories[c].extend(resources)]. *)
Definition extend (c : string) (resources : list R)
    (categories : gmap string (list R)) : gmap string (list R) :=
  <[c := default [] (categories !! c) ++ resources]> categories.

(** The initial [categories] dictionary: every key with an empty list. *)
Definition empty_categories : gmap string (list R) :=
  list_to_map ((fun c => (c, [])) <$> category_keys).

(** [categorize_resources]; the argument is
    [architecture_data['resources']['by_type']] as the list of its items,
    or [None] when one of the two keys is missing. *)
Definition categorize_resources (by_type : option (list (string * list R)))
  : gmap string (list R) :=
  match by_type with
  | None => empty_categories
  | Some items =>
      fold_left (fun categories item => extend (classify (fst item)) (snd item) categories)
                items empty_categories
  end.

End Buckets.

(** The classifier in the words of the specification: lower-case the
    type once, take the first rule one of whose keywords is a substring,
    and fall back to the catch-all. *)
Definition spec_classify (rules : list (string * list string)) (catch_all : string)
    (type : string) : string :=
  let lowered := Str.toLowerCase type in
  match List.find (fun rule => existsb (Str.includes lowered) (snd rule)) rules with
  | Some rule => fst rule
  | None => catch_all
  end.

End Png.

(** ** Outcomes of script fragments that may throw *)

(** [Throws]: the script raises an exception (a [TypeError], or the
    [ReferenceError] of a name that is not bound).  [NotModelled]: the
    script goes on with values this model does not follow (a priority
    that is not a number is coerced by the subtraction, and a [NaN]
    comparison leaves the order to the engine). *)
Inductive outcome (A : Type) : Type :=
| Returns (a : A)
| Throws
| NotModelled.
Arguments Returns {A} a.
Arguments Throws {A}.
Arguments NotModelled {A}.

Definition bindOutcome {A B : Type} (x : outcome A) (k : A -> outcome B) : outcome B :=
  match x with
  | Returns a => k a
  | Throws => Throws
  | NotModelled => NotModelled
  end.

#[export] Instance outcome_bind : MBind outcome :=
  fun A B k x => bindOutcome x k.
#[export] Instance outcome_ret : MRet outcome := @Returns.

(** Run [f] over a list, stopping at the first element whose outcome is
    not a result. *)
Fixpoint forEachOutcome {A B : Type} (f : A -> outcome B) (l : list A) : outcome (list B) :=
  match l with
  | [] => Returns []
  | a :: rest =>
      b ← f a;
      bs ← forEachOutcome f rest;
      mret (b :: bs)
  end.

(** Run [f] over a list from the state [s], stopping at the first
    element at which it does not return. *)
Fixpoint foldOutcome {S A : Type} (f : S -> A -> outcome S) (l : list A) (s : S) : outcome S :=
  match l with
  | [] => Returns s
  | a :: rest =>
      s' ← f s a;
      foldOutcome f rest s'
  end.

(** ** The dashboard script ([azure_dashboard_generator.py], embedded
    JavaScript) *)

Module Dashboard.

(** One element of [allResources].  [None] stands for an attribute that
    is absent. *)
Record resource : Type := {
  id : string;
  name : option string;
  type : string;
  resourceGroup : option string;
  location : option string;
  properties : option json
}.

(** *** Classification *)

(** [serviceCategories], in insertion order. *)
Definition serviceCategories : list (string * string) :=
  [("Microsoft.Compute", "Compute");
   ("Microsoft.Storage", "Storage");
   ("Microsoft.DBforMySQL", "Database");
   ("Microsoft.DBforPostgreSQL", "Database");
   ("Microsoft.Sql", "Database");
   ("Microsoft.Network", "Network");
   ("Microsoft.Security", "Security");
   ("Microsoft.Insights", "Monitoring");
   ("Microsoft.OperationalInsights", "Monitoring");
   ("Microsoft.Logic", "Integration");
   ("Microsoft.ApiManagement", "Integration");
   ("Microsoft.EventGrid", "Integration")].

(** The [for (const prefix in table)] loop of [getCategory]. *)
Fixpoint getCategoryIn (table : list (string * string)) (type : string) : string :=
  match table with
  | [] => "Other"
  | (prefix, category) :: rest =>
      if Str.startsWith type prefix then category else getCategoryIn rest type
  end.

Definition getCategory (type : string) : string :=
  getCategoryIn serviceCategories type.

(** The keys of [iconMap]: the categories the dashboard knows. *)
Definition categories : list string :=
  ["Compute"; "Storage"; "Database"; "Network"; "Security"; "Monitoring";
   "Integration"; "Other"].

(** [r.category]: [initializeDashboard] stores [getCategory(r.type)] in
    every resource once and nothing writes the field afterwards. *)
Definition category (r : resource) : string := getCategory (type r).

(** *** Filtering *)

(** [!activeFilters.category || r.category === activeFilters.category];
    the empty string is falsy like [null]. *)
Definition passesFilter (activeCategory : option string) (r : resource) : bool :=
  match activeCategory with
  | None => true
  | Some c => if String.eqb c "" then true else String.eqb (category r) c
  end.

Definition filterResources (activeCategory : option string)
    (resources : list resource) : list resource :=
  filter (fun r => passesFilter activeCategory r) resources.

(** *** Statistics *)

Record stats : Type := {
  totalResources : nat;
  resourceGroups : nat;
  locations : nat
}.

Definition renderStats (resources : list resource) : stats :=
  let rgSet : gset (option string) := list_to_set (resourceGroup <$> resources) in
  let locSet : gset (option string) := list_to_set (location <$> resources) in
  {| totalResources := length resources;
     resourceGroups := size rgSet;
     locations := size locSet |}.

(** *** Category cards *)

Record card : Type := {
  card_category : string;
  card_count : nat
}.

(** [categoryCounts[category] = (categoryCounts[category] || 0) + 1]
    over all the resources handed in. *)
Definition countStep (categoryCounts : gmap string nat) (r : resource) : gmap string nat :=
  <[category r := default 0 (categoryCounts !! category r) + 1]> categoryCounts.

Definition categoryCounts (resources : list resource) : gmap string nat :=
  fold_left countStep resources ∅.

(** [Object.keys(categoryCounts).sort()]: the keys in ascending order of
    their characters. *)
Definition sortedKeys (counts : gmap string nat) : list string :=
  merge_sort String.le (elements (dom counts)).

(** [renderDashboardView]: [existing] are the cards already in the
    container; they are rendered only once. *)
Definition renderDashboardView (existing : list card) (resources : list resource) : list card :=
  match existing with
  | _ :: _ => existing
  | [] =>
      let counts := categoryCounts resources in
      (fun c => {| card_category := c; card_count := default 0 (counts !! c) |})
        <$> sortedKeys counts
  end.

(** *** Resource table *)

Record row : Type := {
  row_name : option string;
  row_type : string;
  row_group : option string;
  row_location : option string
}.

Definition renderResourceExplorer (resources : list resource) : list row :=
  (fun r => {| row_name := name r; row_type := type r;
               row_group := resourceGroup r; row_location := location r |})
    <$> resources.

(** *** Resource index *)

(** [resourceMap.set(r.id.toLowerCase(), r)] for every resource, in
    order: a later resource replaces an earlier one with the same key. *)
Definition buildResourceMap (resources : list resource) : gmap string resource :=
  fold_left (fun m r => <[Str.toLowerCase (id r) := r]> m) resources ∅.

(** *** Network topology *)

Record node : Type := {
  node_id : string;
  label : option string;
  title : string;
  image : string;
  group : option string
}.

Record edge : Type := {
  from : string;
  to : string
}.

#[export] Instance edge_eq_dec : EqDecision edge.
Proof. solve_decision. Defined.

(** The local variables [nodes], [edges] and [addedNodes] of
    [renderNetworkTopology]. *)
Record topology : Type := {
  nodes : list node;
  edges : list edge;
  addedNodes : gset string
}.

(** [data]: what is handed to the drawing library. *)
Record networkData : Type := {
  data_nodes : list node;
  data_edges : list edge
}.

Section Topology.
Variable getIcon : option (string -> string).
Variable resourceMap : gmap string resource.
Variable filteredResourceIds : gset string.

(** The string branch of [scanProperties] for the string [s], while
    resource [r] is visited. *)
Definition scanString (r : resource) (s : string) : list edge :=
  let val := Str.toLowerCase s in
  if Str.startsWith val "/subscriptions/" then
    match resourceMap !! val with
    | Some target =>
        if bool_decide (val ∈ filteredResourceIds) then
          if bool_decide (Str.toLowerCase (id r) ≠ val)
          then [ {| from := id r; to := id target |} ]
          else []
        else []
    | None => []
    end
  else [].

(** The loop body of [scanProperties] for one member [obj[key]]: a
    string is tested, a mapping or sequence is scanned in turn, anything
    else is skipped. *)
Fixpoint scanMember (r : resource) (v : json) : list edge :=
  match v with
  | JStr s => scanString r s
  | JArr items => flat_map (scanMember r) items
  | JObj fields => flat_map (fun kv => scanMember r (snd kv)) fields
  | JNull | JBool _ | JNum _ => []
  end.

(** [scanProperties(r.properties)]: [for ... in] enumerates the members
    of a mapping or sequence, the characters of a string, and nothing for
    [undefined], [null], numbers and booleans. *)
Definition scanProperties (r : resource) (obj : option json) : list edge :=
  match obj with
  | Some (JObj fields) => flat_map (fun kv => scanMember r (snd kv)) fields
  | Some (JArr items) => flat_map (scanMember r) items
  | Some (JStr s) => flat_map (scanString r) (Str.chars s)
  | Some JNull | Some (JBool _) | Some (JNum _) | None => []
  end.

(** [getIcon(t)].  The script defines no [getIcon]: the call raises a
    [ReferenceError] unless the page binds the name to a function. *)
Definition callGetIcon (t : string) : outcome string :=
  match getIcon with
  | Some f => Returns (f t)
  | None => Throws
  end.

(** The node literal once its [image] has a value. *)
Definition nodeWith (icon : string) (r : resource) : node :=
  {| node_id := id r; label := name r; title := type r;
     image := icon; group := resourceGroup r |}.

(** The node literal [{ id: r.id, ..., image: getIcon(r.type), ... }]. *)
Definition mkNode (r : resource) : outcome node :=
  icon ← callGetIcon (type r);
  mret (nodeWith icon r).

(** One round of [resources.forEach] in [renderNetworkTopology].  The
    node literal is evaluated before [nodes.push] and before the scan:
    an exception in it ends the round, and the loop, with neither. *)
Definition visitResource (t : topology) (r : resource) : outcome topology :=
  t' ← (if bool_decide (id r ∈ addedNodes t) then mret t
        else
          n ← mkNode r;
          mret {| nodes := nodes t ++ [n];
                  edges := edges t;
                  addedNodes := {[ id r ]} ∪ addedNodes t |});
  mret {| nodes := nodes t';
          edges := edges t' ++ scanProperties r (properties r);
          addedNodes := addedNodes t' |}.

End Topology.

Definition emptyTopology : topology :=
  {| nodes := []; edges := []; addedNodes := ∅ |}.

(** [new Set(resources.map(r => r.id.toLowerCase()))]. *)
Definition lowerIds (resources : list resource) : gset string :=
  list_to_set ((fun r => Str.toLowerCase (id r)) <$> resources).

(** [renderNetworkTopology(resources)], up to the data handed to the
    drawing library; [Throws] when the loop raises before there is any
    data. *)
Definition renderNetworkTopology (getIcon : option (string -> string))
    (resourceMap : gmap string resource) (resources : list resource)
  : outcome networkData :=
  let filteredResourceIds := lowerIds resources in
  t ← foldOutcome (visitResource getIcon resourceMap filteredResourceIds)
                  resources emptyTopology;
  mret {| data_nodes := nodes t; data_edges := edges t |}.

(** A network view that shows nothing. *)
Definition noData : networkData := {| data_nodes := []; data_edges := [] |}.

(** What a network view that showed nothing shows after a call of
    [renderNetworkTopology]: the data of a call that returned, and still
    nothing after a call that raised. *)
Definition drawn (x : outcome networkData) : networkData :=
  match x with
  | Returns data => data
  | Throws | NotModelled => noData
  end.

(** *** Security view *)

(** A rule of a security group together with the number its
    [properties.priority] holds. *)
Definition keyedRule : Type := Z * json.

(** [a.properties.priority - b.properties.priority]. *)
Definition comparePriority (a b : keyedRule) : Z := (fst a - fst b)%Z.

(** [rules.sort(compare)].  The language requires the built-in sort to
    be stable, and a stable sort by a total preorder has one possible
    result (see [orderRules_unique]); stable insertion computes it. *)
Fixpoint insertRule (x : keyedRule) (sorted : list keyedRule) : list keyedRule :=
  match sorted with
  | [] => [x]
  | y :: rest =>
      if (comparePriority x y <=? 0)%Z then x :: y :: rest
      else y :: insertRule x rest
  end.

Fixpoint orderRules (rules : list keyedRule) : list keyedRule :=
  match rules with
  | [] => []
  | x :: rest => insertRule x (orderRules rest)
  end.

(** [(nsg.properties.securityRules || [])
       .concat(nsg.properties.defaultSecurityRules || [])].
    Reading a property of [undefined] or [null] throws; a first operand
    that is not an array has no array [concat] followed by [sort];
    [concat] appends a second operand that is not an array as one
    element. *)
Definition nsgRules (nsg : resource) : outcome (list json) :=
  match properties nsg with
  | None | Some JNull => Throws
  | Some p =>
      match Json.orEmptyArray (Json.getProp "securityRules" p) with
      | JArr explicit =>
          match Json.orEmptyArray (Json.getProp "defaultSecurityRules" p) with
          | JArr defaults => Returns (explicit ++ defaults)
          | other => Returns (explicit ++ [other])
          end
      | _ => Throws
      end
  end.

(** [rule.properties.priority] as a number.  [rule.properties] is read
    from every rule, by the comparison or by the row that displays it. *)
Definition rulePriority (rule : json) : outcome Z :=
  match rule with
  | JNull => Throws
  | _ =>
      match Json.getProp "properties" rule with
      | None | Some JNull => Throws
      | Some p =>
          match Json.getProp "priority" p with
          | Some (JNum n) => Returns n
          | _ => NotModelled
          end
      end
  end.

Definition keyRule (rule : json) : outcome keyedRule :=
  n ← rulePriority rule; mret (n, rule).

(** [plural.join(',')]: reached with a truthy [plural], or with [[]] in
    its place; only arrays have [join]. *)
Definition joinOutcome (plural : option json) : outcome unit :=
  match plural with
  | Some (JArr _) => Returns tt
  | Some v => if Json.truthy v then Throws else Returns tt
  | None => Returns tt
  end.

(** [r[single] || (r[plural] && r[plural].join(',')) || '*'] for the
    ports and [r[single] || (r[plural] || []).join(',') || '*'] for the
    addresses: both call [join] when [r[single]] is falsy.  The text of
    the cell is not part of the model. *)
Definition cellOutcome (r : json) (single plural : string) : outcome unit :=
  match Json.getProp single r with
  | Some v => if Json.truthy v then Returns tt else joinOutcome (Json.getProp plural r)
  | None => joinOutcome (Json.getProp plural r)
  end.

(** The table row of one rule: [rule.properties] is read, then the four
    port and address cells are computed. *)
Definition rowOutcome (rule : json) : outcome unit :=
  match rule with
  | JNull => Throws
  | _ =>
      match Json.getProp "properties" rule with
      | None | Some JNull => Throws
      | Some r =>
          _ ← cellOutcome r "sourcePortRange" "sourcePortRanges";
          _ ← cellOutcome r "destinationPortRange" "destinationPortRanges";
          _ ← cellOutcome r "sourceAddressPrefix" "sourceAddressPrefixes";
          cellOutcome r "destinationAddressPrefix" "destinationAddressPrefixes"
      end
  end.

(** One card of the security view: the heading and the rules in the
    order of their table rows. *)
Record nsgCard : Type := {
  nsg_name : option string;
  nsg_group : option string;
  nsg_rules : list json
}.

Definition isNsg (r : resource) : bool :=
  String.eqb (type r) "Microsoft.Network/networkSecurityGroups".

Definition renderNsg (nsg : resource) : outcome nsgCard :=
  rules ← nsgRules nsg;
  keyed ← forEachOutcome keyRule rules;
  let sorted := snd <$> orderRules keyed in
  _ ← forEachOutcome rowOutcome sorted;
  mret {| nsg_name := name nsg;
          nsg_group := resourceGroup nsg;
          nsg_rules := sorted |}.

Definition renderSecurityView (resources : list resource) : outcome (list nsgCard) :=
  let nsgs := filter (fun r => isNsg r) resources in
  forEachOutcome renderNsg nsgs.

(** The order the comparison sorts by. *)
Definition lePriority (a b : keyedRule) : Prop := (fst a ≤ fst b)%Z.

(** The integer a rule holds at [properties.priority], if it does. *)
Definition priorityOf (rule : json) : option Z :=
  match rulePriority rule with
  | Returns n => Some n
  | _ => None
  end.

(** The rule list stored under [k] in the properties of a security
    group: the array itself, or the empty list when [x || []] replaces a
    missing or falsy value; [None] when the properties cannot be read or
    the value is not a list. *)
Definition ruleArray (k : string) (nsg : resource) : option (list json) :=
  match properties nsg with
  | None | Some JNull => None
  | Some p =>
      match Json.orEmptyArray (Json.getProp k p) with
      | JArr rules => Some rules
      | _ => None
      end
  end.

(** A security group whose two rule lists can be read and whose rules
    all hold an integer priority and have a row that can be rendered. *)
Definition wellFormedNsg (nsg : resource) : Prop :=
  ∃ explicit defaults,
    ruleArray "securityRules" nsg = Some explicit
    ∧ ruleArray "defaultSecurityRules" nsg = Some defaults
    ∧ Forall (fun rule => is_Some (priorityOf rule) ∧ rowOutcome rule = Returns tt)
             (explicit ++ defaults).

(** Every rule has a priority that is at most the priority of every
    rule after it. *)
Definition ascendingPriority (rules : list json) : Prop :=
  StronglySorted
    (fun a b => ∃ m n, priorityOf a = Some m ∧ priorityOf b = Some n ∧ (m ≤ n)%Z)
    rules.

(** The card shows the rules of the security group: its explicit rules
    followed by its default rules, rearranged into ascending priority
    with the rules of each priority in their original order. *)
Definition displayedAs (nsg : resource) (card : nsgCard) : Prop :=
  ∃ explicit defaults,
    ruleArray "securityRules" nsg = Some explicit
    ∧ ruleArray "defaultSecurityRules" nsg = Some defaults
    ∧ nsg_name card = name nsg
    ∧ nsg_group card = resourceGroup nsg
    ∧ nsg_rules card ≡ₚ explicit ++ defaults
    ∧ ascendingPriority (nsg_rules card)
    ∧ ∀ n, filter (fun rule => priorityOf rule = Some n) (nsg_rules card)
           = filter (fun rule => priorityOf rule = Some n) (explicit ++ defaults).

(** *** The page: script state and rendered views *)

Record dashboard : Type := {
  allResources : list resource;
  resourceMap : gmap string resource;
  activeFilters : option string;
  statsView : stats;
  cardsView : list card;
  tableView : list row;
  topologyView : networkData;
  securityView : outcome (list nsgCard)
}.

(** The views of the page, without the script state. *)
Record derivedViews : Type := {
  counts : stats;
  categoryTotals : list card;
  tableRows : list row;
  graphProjection : networkData;
  securityRules : outcome (list nsgCard)
}.

Definition views (d : dashboard) : derivedViews :=
  {| counts := statsView d;
     categoryTotals := cardsView d;
     tableRows := tableView d;
     graphProjection := topologyView d;
     securityRules := securityView d |}.

Section Page.
Variable getIcon : option (string -> string).

(** [applyFilters()]: the page after the call, whether it returned or
    raised.  The statistics, the cards and the table are rendered first.
    An exception in [renderNetworkTopology] ends [applyFilters] there:
    the network view keeps what it showed and [renderSecurityView] is
    not reached, so the security view keeps what it showed as well.
    [renderSecurityView] is the last call, so an exception in it leaves
    the other views rendered. *)
Definition applyFilters (d : dashboard) : dashboard :=
  let filteredResources := filterResources (activeFilters d) (allResources d) in
  let topology := renderNetworkTopology getIcon (resourceMap d) filteredResources in
  {| allResources := allResources d;
     resourceMap := resourceMap d;
     activeFilters := activeFilters d;
     statsView := renderStats filteredResources;
     cardsView := renderDashboardView (cardsView d) (allResources d);
     tableView := renderResourceExplorer filteredResources;
     topologyView :=
       match topology with
       | Returns data => data
       | Throws | NotModelled => topologyView d
       end;
     securityView :=
       match topology with
       | Returns _ => renderSecurityView filteredResources
       | Throws | NotModelled => securityView d
       end |}.

Definition setFilter (c : option string) (d : dashboard) : dashboard :=
  {| allResources := allResources d;
     resourceMap := resourceMap d;
     activeFilters := c;
     statsView := statsView d;
     cardsView := cardsView d;
     tableView := tableView d;
     topologyView := topologyView d;
     securityView := securityView d |}.

(** The page before the script runs. *)
Definition blankPage : dashboard :=
  {| allResources := [];
     resourceMap := ∅;
     activeFilters := None;
     statsView := renderStats [];
     cardsView := [];
     tableView := [];
     topologyView := noData;
     securityView := Returns [] |}.

(** [initializeDashboard()]; the argument is
    [architectureData.resources.by_type] as the list of its entries, or
    [None] when it is missing. *)
Definition loadResources (by_type : option (list (string * list resource))) : list resource :=
  match by_type with
  | Some entries => flat_map snd entries
  | None => []
  end.

Definition initializeDashboard (by_type : option (list (string * list resource))) : dashboard :=
  let all := loadResources by_type in
  applyFilters
    {| allResources := all;
       resourceMap := buildResourceMap all;
       activeFilters := None;
       statsView := statsView blankPage;
       cardsView := cardsView blankPage;
       tableView := tableView blankPage;
       topologyView := topologyView blankPage;
       securityView := securityView blankPage |}.

(** The [onclick] handler of the card of [category]. *)
Definition clickCard (category : string) (d : dashboard) : dashboard :=
  let next :=
    if bool_decide (activeFilters d = Some category) then None else Some category in
  applyFilters (setFilter next d).

(** The handler of the reset button. *)
Definition resetFilters (d : dashboard) : dashboard :=
  applyFilters (setFilter None d).

Inductive action : Type :=
| ClickCard (category : string)
| ResetFilters.

Definition step (d : dashboard) (a : action) : dashboard :=
  match a with
  | ClickCard c => clickCard c d
  | ResetFilters => resetFilters d
  end.

Definition run (d : dashboard) (actions : list action) : dashboard :=
  fold_left step actions d.

(** The page as a function of the collection and of the filter: the
    statistics and the table rendered from the filtered resources, the
    cards from the whole collection, the network and the security view
    from the filtered resources when the topology can be rendered, and
    showing nothing when it cannot.  The pages reached from the initial
    one are of this form (see [run_pageFor]). *)
Definition pageFor (all : list resource) (active : option string) : dashboard :=
  let filteredResources := filterResources active all in
  let topology := renderNetworkTopology getIcon (buildResourceMap all) filteredResources in
  {| allResources := all;
     resourceMap := buildResourceMap all;
     activeFilters := active;
     statsView := renderStats filteredResources;
     cardsView := renderDashboardView [] all;
     tableView := renderResourceExplorer filteredResources;
     topologyView := drawn topology;
     securityView :=
       match topology with
       | Returns _ => renderSecurityView filteredResources
       | Throws | NotModelled => Returns []
       end |}.

(** The filter after an action. *)
Definition nextFilter (active : option string) (a : action) : option string :=
  match a with
  | ClickCard c => if bool_decide (active = Some c) then None else Some c
  | ResetFilters => None
  end.

(** The graph of the whole collection: the topology rendered when no
    filter is active. *)
Definition fullGraph (resources : list resource) : outcome networkData :=
  renderNetworkTopology getIcon (buildResourceMap resources) resources.

End Page.

(** The number of resources of a category. *)
Definition countCategory (c : string) (resources : list resource) : nat :=
  length (filter (fun r => category r = c) resources).

(** The identifiers are pairwise different, also when letter case is
    ignored. *)
Definition uniqueIds (resources : list resource) : Prop :=
  NoDup ((fun r => Str.toLowerCase (id r)) <$> resources).

(** The string [s] is a reference to the resource [t] that the scan
    accepts: lower-cased, it starts with the subscription prefix and is
    [t]'s lower-cased id. *)
Definition refersTo (s : string) (t : resource) : Prop :=
  Str.startsWith (Str.toLowerCase s) "/subscriptions/" = true
  ∧ Str.toLowerCase s = Str.toLowerCase (id t).

#[export] Instance refersTo_dec s t : Decision (refersTo s t).
Proof. unfold refersTo. apply _. Defined.

(** Both ends of the edge are ids of the given resources. *)
Definition bothEndsIn (resources : list resource) (e : edge) : Prop :=
  from e ∈ id <$> resources ∧ to e ∈ id <$> resources.

#[export] Instance bothEndsIn_dec resources e : Decision (bothEndsIn resources e).
Proof. unfold bothEndsIn. apply _. Defined.

(** The resource has no properties to scan: the attribute is absent,
    [null], or an empty mapping. *)
Definition noProperties (r : resource) : Prop :=
  properties r = None ∨ properties r = Some JNull ∨ properties r = Some (JObj []).

End Dashboard.

(** ** Sample data *)

Module Samples.
Import Dashboard.

Definition mkResource (i n t : string) (p : option json) : resource :=
  {| id := i; name := Some n; type := t;
     resourceGroup := Some "rg-app"; location := Some "westeurope";
     properties := p |}.

Definition nicId : string := "/subscriptions/42/networkInterfaces/nic1".
Definition vmId : string := "/subscriptions/42/virtualMachines/vm1".
Definition diskId : string := "/subscriptions/42/storageAccounts/disks1".

(** A network interface without properties. *)
Definition nic : resource :=
  mkResource nicId "nic1" "Microsoft.Network/networkInterfaces" None.

(** Its reference as some service writes it, in another letter case. *)
Definition nicRef : string := "/SUBSCRIPTIONS/42/networkInterfaces/NIC1".

(** A virtual machine whose nested properties name the interface once. *)
Definition vm : resource :=
  mkResource vmId "vm1" "Microsoft.Compute/virtualMachines"
    (Some (JObj [("hardwareProfile", JObj [("vmSize", JStr "Standard_B2s")]);
                 ("networkProfile",
                  JObj [("networkInterfaces", JArr [JObj [("id", JStr nicRef)]])])])).

(** A virtual machine that names the interface in two places and itself
    in a third. *)
Definition vmTwice : resource :=
  mkResource vmId "vm1" "Microsoft.Compute/virtualMachines"
    (Some (JObj [("primaryInterface", JStr nicId);
                 ("networkInterfaces", JArr [JStr nicRef]);
                 ("self", JStr vmId)])).

(** A storage account that names the virtual machine. *)
Definition disk : resource :=
  mkResource diskId "disks1" "Microsoft.Storage/storageAccounts"
    (Some (JObj [("attachedTo", JStr vmId)])).

(** Two resources whose ids do not start with the subscription prefix. *)
Definition vnet : resource :=
  mkResource "vnet-1" "vnet-1" "Microsoft.Network/virtualNetworks" (Some (JObj [])).

Definition subnet : resource :=
  mkResource "subnet-1" "subnet-1" "Microsoft.Network/virtualNetworks/subnets"
    (Some (JObj [("virtualNetwork", JStr "VNET-1")])).

Definition mkRule (n : string) (priority : Z) : json :=
  JObj [("name", JStr n);
        ("properties", JObj [("priority", JNum priority); ("access", JStr "Allow")])].

(** A security group with explicit priorities 300, 100 and default
    priorities 100, 200. *)
Definition nsg : resource :=
  mkResource "/subscriptions/42/networkSecurityGroups/nsg1" "nsg1"
    "Microsoft.Network/networkSecurityGroups"
    (Some (JObj [("securityRules", JArr [mkRule "web" 300; mkRule "ssh" 100]);
                 ("defaultSecurityRules", JArr [mkRule "vnet" 100; mkRule "lb" 200])])).

(** A security group without rule lists. *)
Definition nsgBare : resource :=
  mkResource "/subscriptions/42/networkSecurityGroups/nsg2" "nsg2"
    "Microsoft.Network/networkSecurityGroups" (Some (JObj [])).

(** Three resources, two of which have ids that differ in letter case
    only. *)
Definition gatewayUpper : resource :=
  mkResource "/subscriptions/42/gateways/GW" "GW" "Microsoft.Compute/gateways" None.

Definition gatewayLower : resource :=
  mkResource "/subscriptions/42/gateways/gw" "gw" "Microsoft.Storage/gateways" None.

Definition client : resource :=
  mkResource "/subscriptions/42/virtualMachines/client" "client"
    "Microsoft.Compute/virtualMachines"
    (Some (JObj [("gateway", JStr "/subscriptions/42/gateways/gw")])).

Definition by_type : option (list (string * list resource)) :=
  Some [("Microsoft.Compute/virtualMachines", [vm]);
        ("Microsoft.Network/networkInterfaces", [nic]);
        ("Microsoft.Storage/storageAccounts", [disk]);
        ("Microsoft.Network/networkSecurityGroups", [nsg; nsgBare])].

End Samples.

(** ** More of the dashboard script *)

Module Highlight.
Import Dashboard.

(** The class list of a card: [card.className] is
    [`service-card ${category}`], and no category has a blank in it. *)
Definition cardClasses (c : card) : list string :=
  ["service-card"; card_category c].

(** [activeFilters.category && card.classList.contains(activeFilters.category)]. *)
Definition isSelected (active : option string) (c : card) : bool :=
  match active with
  | None => false
  | Some a => if String.eqb a "" then false else bool_decide (a ∈ cardClasses c)
  end.

(** [highlightSelectedCard()]: every card loses the class [selected],
    and gets it back when it carries the active category as a class. *)
Definition highlightSelectedCard (active : option string) (cards : list card)
  : list (card * bool) :=
  (fun c => (c, isSelected active c)) <$> cards.

End Highlight.

(** ** More of the PNG generator ([azure_modern_png_generator.py]) *)

Module PngDiagrams.
Import Png.

Section Resources.
Context {R : Type}.

(** The [network_resources] that [create_network_topology_diagram]
    collects: the resources of the types of [by_type] whose lower-cased
    name contains ['microsoft.network'], in the order of [by_type]; none
    when one of the two keys is missing.  What the diagram draws of them
    is [network_rows] below. *)
Definition network_resources (by_type : option (list (string * list R))) : list R :=
  match by_type with
  | None => []
  | Some items =>
      flat_map (fun item =>
                  if Str.includes (Str.toLowerCase (fst item)) "microsoft.network"
                  then snd item else [])
               items
  end.

(** The resources of the types that are classified under [c], in the
    order of [by_type]. *)
Definition bucketOf (c : string) (by_type : option (list (string * list R))) : list R :=
  match by_type with
  | None => []
  | Some items => flat_map snd (filter (fun item => classify (fst item) = c) items)
  end.

(** [{k: v for k, v in categories.items() if v}]: the dictionary
    enumerates its keys in the order in which it was created. *)
Definition non_empty_categories (categories : gmap string (list R))
  : list (string * list R) :=
  omap (fun k => match categories !! k with
                 | Some (r :: rs) => Some (k, r :: rs)
                 | _ => None
                 end)
       category_keys.

(** [create_cost_analysis_chart], up to the [sizes] drawn by the pie and
    the bar chart; [None] when it returns without a chart. *)
Definition chart_sizes (by_type : option (list (string * list R))) : option (list nat) :=
  match non_empty_categories (categorize_resources by_type) with
  | [] => None
  | kv :: rest => Some ((fun kv => length (snd kv)) <$> (kv :: rest))
  end.

End Resources.

(** The grid of [create_resource_groups_diagram] for [n] resource
    groups; the function returns before the grid when there is none. *)
Definition rg_cols (n : nat) : nat := Nat.min 3 n.

Definition rg_rows (n : nat) : nat := (n + rg_cols n - 1) / rg_cols n.

(** [(row, col)] of the box of the [i]-th resource group. *)
Definition rg_cell (n i : nat) : nat * nat := (i / rg_cols n, i mod rg_cols n).

(** [f.endswith(suffix)]. *)
Fixpoint endsWith (f suffix : string) : bool :=
  String.eqb f suffix ||
  match f with
  | EmptyString => false
  | String _ f' => endsWith f' suffix
  end.

Definition isExportFile (f : string) : bool :=
  Str.startsWith f "azure_architecture_export_" && endsWith f ".json".

(** The file [main] loads: [sorted(architecture_files)[-1]] over the
    names of the directory listing that look like an export; [None] when
    there is none and [main] returns. *)
Definition latest_file (listing : list string) : option string :=
  last (merge_sort String.le (filter (fun f => isExportFile f) listing)).

End PngDiagrams.

(** ** The extractor ([azure_architecture_extractor.py]) *)

Module Extractor.

Section Grouping.
Context {R : Type}.

(** A dictionary of lists in the order of its keys.
    [if key not in d: d[key] = []] followed by [d[key].append(resource)]. *)
Fixpoint appendTo (key : string) (resource : R) (d : list (string * list R))
  : list (string * list R) :=
  match d with
  | [] => [(key, [resource])]
  | (k, rs) :: rest =>
      if String.eqb k key then (k, rs ++ [resource]) :: rest
      else (k, rs) :: appendTo key resource rest
  end.

(** [resource.get('type')] and [resource.get('resourceGroup')]: the
    string under the key, [None] when the key is missing. *)
Variable typeOf : R → option string.
Variable groupOf : R → option string.

Definition resource_type (resource : R) : string := default "Unknown" (typeOf resource).
Definition resource_group (resource : R) : string := default "Unknown" (groupOf resource).

Record resources : Type := {
  by_type : list (string * list R);
  by_resource_group : list (string * list R);
  all : list R
}.

(** One round of the loop of [get_all_resources]. *)
Definition groupStep (acc : list (string * list R) * list (string * list R)) (resource : R)
  : list (string * list R) * list (string * list R) :=
  (appendTo (resource_type resource) resource (fst acc),
   appendTo (resource_group resource) resource (snd acc)).

(** [get_all_resources] on the parsed output of [az resource list]. *)
Definition get_all_resources (all_resources : list R) : resources :=
  let acc := fold_left groupStep all_resources ([], []) in
  {| by_type := fst acc; by_resource_group := snd acc; all := all_resources |}.

(** The resources with key [k], in their order. *)
Definition keyed (key : R → string) (k : string) (rs : list R) : list R :=
  filter (fun r => key r = k) rs.

End Grouping.

(** The keyword lists of [analyze_architecture_patterns] in the order of
    its [if]/[elif] chain. *)
Definition pattern_rules : list (string * list string) :=
  [("web_applications", ["web"; "app"; "function"]);
   ("databases", ["sql"; "cosmos"; "mysql"; "postgresql"]);
   ("storage_accounts", ["storage"]);
   ("networking", ["network"; "vnet"; "subnet"; "nsg"; "lb"]);
   ("compute", ["vm"; "compute"; "container"; "kubernetes"]);
   ("security", ["vault"; "security"; "identity"]);
   ("monitoring", ["monitor"; "insights"; "log"]);
   ("devops", ["devops"; "pipeline"; "registry"])].

(** [any(keyword in resource_type.lower() for keyword in keywords)]. *)
Definition mentions (resource_type : string) (keywords : list string) : bool :=
  existsb (Str.includes (Str.toLowerCase resource_type)) keywords.

(** The [if]/[elif] chain: the pattern the resources of a type are added
    to, [None] when no branch is taken. *)
Definition pattern_of (resource_type : string) : option string :=
  if mentions resource_type ["web"; "app"; "function"] then Some "web_applications"
  else if mentions resource_type ["sql"; "cosmos"; "mysql"; "postgresql"] then Some "databases"
  else if Str.includes (Str.toLowerCase resource_type) "storage" then Some "storage_accounts"
  else if mentions resource_type ["network"; "vnet"; "subnet"; "nsg"; "lb"] then Some "networking"
  else if mentions resource_type ["vm"; "compute"; "container"; "kubernetes"] then Some "compute"
  else if mentions resource_type ["vault"; "security"; "identity"] then Some "security"
  else if mentions resource_type ["monitor"; "insights"; "log"] then Some "monitoring"
  else if mentions resource_type ["devops"; "pipeline"; "registry"] then Some "devops"
  else None.

Definition pattern_keys : list string :=
  ["web_applications"; "databases"; "storage_accounts"; "networking"; "compute";
   "security"; "monitoring"; "devops"].

Section Patterns.
Context {R : Type}.

(** [analyze_architecture_patterns]; the argument is
    [self.resources['by_type']] as the list of its items, [None] when
    [self.resources] is empty. *)
Definition analyze_architecture_patterns (by_type : option (list (string * list R)))
  : gmap string (list R) :=
  let patterns : gmap string (list R) :=
    list_to_map ((fun k => (k, [])) <$> pattern_keys) in
  match by_type with
  | None => patterns
  | Some items =>
      fold_left (fun patterns item =>
                   match pattern_of (fst item) with
                   | Some p => Png.extend p (snd item) patterns
                   | None => patterns
                   end)
                items patterns
  end.

End Patterns.

End Extractor.

(** ** The rows of the network diagram
    ([create_network_topology_diagram] of [azure_modern_png_generator.py]) *)

Module NetworkDiagram.
Import PngDiagrams Extractor.

(** What follows the last ['/'] of [s]; [None] when [s] has none. *)
Fixpoint afterLastSlash (s : string) : option string :=
  match s with
  | EmptyString => None
  | String c s' =>
      match afterLastSlash s' with
      | Some t => Some t
      | None => if Ascii.eqb c "/" then Some s' else None
      end
  end.

(** [t.split('/')[-1]]. *)
Definition lastSegment (t : string) : string := default t (afterLastSlash t).

Section Rows.
Context {R : Type}.

(** [resource.get('type')], [None] when the resource has no such key. *)
Variable typeOf : R -> option string.

(** [resource.get('type', '').split('/')[-1]]. *)
Definition service_type (resource : R) : string :=
  lastSegment (default "" (typeOf resource)).

(** [network_by_type]: a [defaultdict(list)] filled by [append], its
    keys in the order in which they first occur. *)
Definition network_by_type (network_resources : list R) : list (string * list R) :=
  fold_left (fun d resource => appendTo (service_type resource) resource d)
            network_resources [].

(** One row of the diagram: the number in the header, the resources
    that get a box, and the number in the ['... +n more'] note, if there
    is one. *)
Record serviceRow : Type := {
  header_count : nat;
  boxes : list R;
  more : option nat
}.

(** The body of the loop over [network_by_type.items()]: the header
    shows [len(resources)], boxes are drawn for [resources[:5]], and the
    note is added when [len(resources) > 5]. *)
Definition drawRow (resources : list R) : serviceRow :=
  {| header_count := length resources;
     boxes := take 5 resources;
     more := if bool_decide (5 < length resources)%nat
             then Some (length resources - 5)%nat else None |}.

(** The rows [create_network_topology_diagram] draws, by service type;
    [None] when there are no network resources and the function writes
    its ['No network resources found'] picture. *)
Definition network_rows (by_type : option (list (string * list R)))
  : option (list (string * serviceRow)) :=
  match network_resources by_type with
  | [] => None
  | r :: rs => Some ((fun kv => (fst kv, drawRow (snd kv))) <$> network_by_type (r :: rs))
  end.

End Rows.

End NetworkDiagram.

(* ===================================================================== *)
(** * Part II: properties *)
(* ===================================================================== *)

(** Membership in a list that is written out. *)
Ltac in_list :=
  simpl; repeat first [ apply list_elem_of_here | apply list_elem_of_further ].

(** ** Strings *)

Module StrFacts.
Import Str.

Lemma lowerAscii_idemp c : lowerAscii (lowerAscii c) = lowerAscii c.
Proof.
  destruct c as [[] [] [] [] [] [] [] []]; reflexivity.
Qed.

Lemma toLowerCase_idemp s : toLowerCase (toLowerCase s) = toLowerCase s.
Proof.
  induction s as [|c s IH]; simpl; [reflexivity|].
  by rewrite lowerAscii_idemp, IH.
Qed.

(** A one-character string does not start with a longer prefix. *)
Lemma startsWith_char c a b p : startsWith (String c "") (String a (String b p)) = false.
Proof. simpl. by destruct (Ascii.eqb a c). Qed.

End StrFacts.

(** ** The two classifiers *)

Module ClassifierFacts.
Import Str Png Dashboard.

Lemma fold_rule_step_chosen lowered rules c :
  fold_left (rule_step lowered) rules (Some c) = Some c.
Proof. induction rules as [|rule rules IH]; simpl; auto. Qed.

(** The loop with [break] picks the first rule that matches. *)
Lemma fold_rule_step_find lowered rules :
  fold_left (rule_step lowered) rules None
  = fst <$> List.find (fun rule => existsb (includes lowered) (snd rule)) rules.
Proof.
  induction rules as [|rule rules IH]; simpl; [reflexivity|].
  unfold any_keyword.
  destruct (existsb (includes lowered) (snd rule)); simpl.
  - apply fold_rule_step_chosen.
  - apply IH.
Qed.

Lemma classify_with_spec rules t :
  classify_with rules t = spec_classify rules "other" t.
Proof.
  unfold classify_with, spec_classify.
  rewrite fold_rule_step_find.
  by destruct (List.find _ rules).
Qed.

Lemma classify_with_range rules t :
  classify_with rules t = "other" ∨ classify_with rules t ∈ (fst <$> rules).
Proof.
  rewrite classify_with_spec. unfold spec_classify.
  destruct (List.find _ rules) as [rule|] eqn:Hfind; [right | by left].
  apply find_some in Hfind as [Hin _].
  apply list_elem_of_fmap. exists rule. split; [done|].
  by apply list_elem_of_In.
Qed.

Lemma classify_in_keys t : classify t ∈ category_keys.
Proof.
  destruct (classify_with_range type_mapping t) as [H|H]; unfold classify.
  - rewrite H. compute_done.
  - revert H. generalize (classify_with type_mapping t). intros c Hc.
    assert (Hsub : Forall (fun k => k ∈ category_keys) (fst <$> type_mapping))
      by compute_done.
    rewrite Forall_forall in Hsub. auto.
Qed.

(** [getCategory] returns the category of the first entry whose prefix
    the type starts with, or ["Other"] when there is none. *)
Lemma getCategoryIn_first_match table t :
  (getCategoryIn table t = "Other"
   ∧ ∀ entry, entry ∈ table → startsWith t (fst entry) = false)
  ∨ (∃ before prefix category after,
        table = before ++ (prefix, category) :: after
        ∧ startsWith t prefix = true
        ∧ (∀ entry, entry ∈ before → startsWith t (fst entry) = false)
        ∧ getCategoryIn table t = category).
Proof.
  induction table as [|[p c] table IH]; simpl.
  - left. split; [done|]. intros e He. by apply elem_of_nil in He.
  - destruct (startsWith t p) eqn:Hp.
    + right. exists [], p, c, table. repeat split; try done.
      intros e He. by apply elem_of_nil in He.
    + destruct IH as [[Ho Hno] | (before & p' & c' & after & -> & Hp' & Hno & Hc)].
      * left. split; [done|]. intros e [->|He]%elem_of_cons; auto.
      * right. exists ((p, c) :: before), p', c', after. repeat split; try done.
        intros e [->|He]%elem_of_cons; auto.
Qed.

Lemma getCategoryIn_range table t :
  getCategoryIn table t ∈ "Other" :: (snd <$> table).
Proof.
  induction table as [|[p c] table IH]; simpl.
  - apply elem_of_cons. by left.
  - destruct (startsWith t p).
    + apply elem_of_cons. right. apply elem_of_cons. by left.
    + apply elem_of_cons in IH as [->|IH]; apply elem_of_cons; [by left|].
      right. apply elem_of_cons. by right.
Qed.

Lemma getCategory_in_categories t : getCategory t ∈ categories.
Proof.
  assert (Hsub : Forall (fun c => c ∈ categories) ("Other" :: (snd <$> serviceCategories)))
    by compute_done.
  rewrite Forall_forall in Hsub. apply Hsub, getCategoryIn_range.
Qed.

Lemma extend_lookup {R} c' (res : list R) (m : gmap string (list R)) c :
  default [] (extend c' res m !! c)
  = default [] (m !! c) ++ (if decide (c' = c) then res else []).
Proof.
  unfold extend. destruct (decide (c' = c)) as [->|Hne].
  - by rewrite lookup_insert_eq.
  - rewrite lookup_insert_ne by done. by rewrite app_nil_r.
Qed.

(** Every bucket of [categorize_resources] holds the resources of the
    types classified into it, in the order of [by_type]. *)
Lemma categorize_resources_bucket {R} (items : list (string * list R)) c :
  default [] (categorize_resources (Some items) !! c)
  = flat_map snd (filter (fun item => classify (fst item) = c) items).
Proof.
  unfold categorize_resources.
  assert (Hgen : ∀ m : gmap string (list R),
    default [] (fold_left (fun categories item =>
                             extend (classify (fst item)) (snd item) categories)
                          items m !! c)
    = default [] (m !! c)
      ++ flat_map snd (filter (fun item => classify (fst item) = c) items)).
  { induction items as [|[t res] items IH]; intros m; simpl.
    - by rewrite app_nil_r.
    - rewrite IH, extend_lookup, filter_cons. simpl.
      destruct (decide (classify t = c)); simpl; by rewrite <- app_assoc. }
  rewrite Hgen.
  assert (Hempty : default [] (@empty_categories R !! c) = []).
  { unfold empty_categories.
    destruct (list_to_map _ !! c) as [l|] eqn:Hl; [|done].
    apply elem_of_list_to_map_2, list_elem_of_fmap in Hl as (k & [= _ ->] & _).
    done. }
  by rewrite Hempty.
Qed.

(** The keyword classifier does not tell apart two types that differ in
    letter case only. *)
Lemma spec_classify_case_blind rules catch_all t1 t2 :
  toLowerCase t1 = toLowerCase t2 →
  spec_classify rules catch_all t1 = spec_classify rules catch_all t2.
Proof. unfold spec_classify. by intros ->. Qed.

(** The declared order decides between overlapping matches, and the two
    classifiers differ on types outside the prefix table. *)
Example classify_samples :
  classify "Microsoft.Storage/storageAccounts" = "storage"
  ∧ classify "MICROSOFT.WEB/sites" = "compute"
  ∧ classify "Microsoft.Network/Microsoft.Storage" = "storage"
  ∧ classify "Microsoft.Storage/Microsoft.Network" = "storage"
  ∧ classify "Contoso.Widgets/gadgets" = "other"
  ∧ getCategory "Microsoft.Storage/storageAccounts" = "Storage"
  ∧ getCategory "Microsoft.Web/sites" = "Other"
  ∧ getCategory "Contoso/Microsoft.Storage" = "Other".
Proof. repeat split; reflexivity. Qed.

(** C2, as the code has it.  The PNG generator's [categorize_resources]
    lower-cases the type once, walks its keyword rules in declared order
    and takes the first rule one of whose keywords is a substring, with
    ["other"] as the catch-all.  The dashboard's [getCategory] does not
    lower-case: it returns the category of the first declared prefix the
    type starts with, letter case included, and ["Other"] when there is
    none.  Each returns a member of its own fixed category set for every
    string, the empty one included. *)
Theorem classifiers_first_match_total :
  (∀ t, classify t = spec_classify type_mapping "other" t)
  ∧ (∀ t, classify t ∈ category_keys)
  ∧ (∀ t,
       (getCategory t = "Other"
        ∧ ∀ entry, entry ∈ serviceCategories →
                   startsWith t (fst entry) = false)
       ∨ (∃ before prefix category after,
            serviceCategories = before ++ (prefix, category) :: after
            ∧ startsWith t prefix = true
            ∧ (∀ entry, entry ∈ before → startsWith t (fst entry) = false)
            ∧ getCategory t = category))
  ∧ (∀ t, getCategory t ∈ categories)
  ∧ classify "" = "other"
  ∧ getCategory "" = "Other".
Proof.
  split; [intros t; apply classify_with_spec|].
  split; [apply classify_in_keys|].
  split; [intros t; apply getCategoryIn_first_match|].
  split; [apply getCategory_in_categories|].
  split; reflexivity.
Qed.

(** C2 fails on [getCategory]: a type in lower case is sent to
    ["Other"] although the same type in its usual spelling is Storage, so
    no table of lower-case keyword rules applied to the lower-cased type
    computes [getCategory]. *)
Lemma getCategory_is_case_sensitive :
  getCategory "Microsoft.Storage/storageAccounts" = "Storage"
  ∧ getCategory "microsoft.storage/storageaccounts" = "Other"
  ∧ ¬ ∃ rules catch_all,
        ∀ t, getCategory t = spec_classify rules catch_all t.
Proof.
  split; [reflexivity|]. split; [reflexivity|].
  intros (rules & catch_all & H).
  pose proof (H "Microsoft.Storage/storageAccounts") as H1.
  pose proof (H "microsoft.storage/storageaccounts") as H2.
  rewrite (spec_classify_case_blind rules catch_all
             "Microsoft.Storage/storageAccounts"
             "microsoft.storage/storageaccounts") in H1 by reflexivity.
  rewrite <- H2 in H1. discriminate H1.
Qed.

End ClassifierFacts.

(** ** JSON values *)

Module JsonFacts.

(** Induction over JSON values that reaches the members of sequences
    and mappings. *)
Lemma json_nested_ind (P : json → Prop) :
  P JNull →
  (∀ b, P (JBool b)) →
  (∀ n, P (JNum n)) →
  (∀ s, P (JStr s)) →
  (∀ items, Forall P items → P (JArr items)) →
  (∀ fields, Forall (fun kv => P (snd kv)) fields → P (JObj fields)) →
  ∀ v, P v.
Proof.
  intros Hnull Hbool Hnum Hstr Harr Hobj.
  fix IH 1. intros [ | b | n | s | items | fields ].
  - exact Hnull.
  - apply Hbool.
  - apply Hnum.
  - apply Hstr.
  - apply Harr. induction items as [|v items IHitems]; constructor.
    + apply IH.
    + exact IHitems.
  - apply Hobj. induction fields as [|[k v] fields IHfields]; constructor.
    + apply IH.
    + exact IHfields.
Qed.

Lemma flat_map_ext_Forall {A B} (f g : A → list B) l :
  Forall (fun a => f a = g a) l → flat_map f l = flat_map g l.
Proof. induction 1 as [|a l Ha _ IH]; simpl; [done|]. by rewrite Ha, IH. Qed.

Lemma flat_map_flat_map {A B C} (f : A → list B) (g : B → list C) l :
  flat_map g (flat_map f l) = flat_map (fun a => flat_map g (f a)) l.
Proof.
  induction l as [|a l IH]; simpl; [done|].
  by rewrite flat_map_app, IH.
Qed.

Lemma elem_of_flat_map {A B} (f : A → list B) l b :
  b ∈ flat_map f l ↔ ∃ a, a ∈ l ∧ b ∈ f a.
Proof.
  rewrite list_elem_of_In, in_flat_map.
  split; intros (a & Ha & Hb); exists a.
  - by rewrite !list_elem_of_In.
  - by rewrite <- !list_elem_of_In.
Qed.

End JsonFacts.

(** ** The resource index *)

Module IndexFacts.
Import Str Dashboard.

Lemma fold_insert_lookup rs (m : gmap string resource) k t :
  fold_left (fun m r => <[toLowerCase (id r) := r]> m) rs m !! k = Some t →
  (t ∈ rs ∧ toLowerCase (id t) = k) ∨ m !! k = Some t.
Proof.
  revert m. induction rs as [|r rs IH]; intros m H; simpl in H.
  - by right.
  - apply IH in H as [[Hin Hk]|H].
    + left. split; [by apply elem_of_cons; right | done].
    + destruct (decide (toLowerCase (id r) = k)) as [Heq|Hne].
      * subst k. rewrite lookup_insert_eq in H. injection H as <-.
        left. split; [by apply elem_of_cons; left | done].
      * rewrite lookup_insert_ne in H by done. by right.
Qed.

(** Whatever the index returns for a key is a resource of the collection
    whose lower-cased id is that key. *)
Lemma buildResourceMap_lookup rs k t :
  buildResourceMap rs !! k = Some t → t ∈ rs ∧ toLowerCase (id t) = k.
Proof.
  intros [H|H]%fold_insert_lookup; [done|].
  by rewrite lookup_empty in H.
Qed.

Lemma fold_insert_dom rs (m : gmap string resource) :
  dom (fold_left (fun m r => <[toLowerCase (id r) := r]> m) rs m)
  = lowerIds rs ∪ dom m.
Proof.
  revert m. induction rs as [|r rs IH]; intros m; simpl.
  - unfold lowerIds. simpl. set_solver.
  - rewrite IH, dom_insert_L. unfold lowerIds. simpl. set_solver.
Qed.

(** The keys of the index are the lower-cased ids. *)
Lemma buildResourceMap_dom rs : dom (buildResourceMap rs) = lowerIds rs.
Proof. unfold buildResourceMap. rewrite fold_insert_dom. set_solver. Qed.

Lemma elem_of_lowerIds rs k :
  k ∈ lowerIds rs ↔ ∃ r, r ∈ rs ∧ toLowerCase (id r) = k.
Proof.
  unfold lowerIds. rewrite elem_of_list_to_set, list_elem_of_fmap.
  split; intros (r & H1 & H2); exists r; auto.
Qed.

Lemma buildResourceMap_is_Some rs k :
  is_Some (buildResourceMap rs !! k) ↔ k ∈ lowerIds rs.
Proof. by rewrite <- elem_of_dom, buildResourceMap_dom. Qed.

Lemma NoDup_fmap_eq {A B} (f : A → B) (l : list A) x y :
  NoDup (f <$> l) → x ∈ l → y ∈ l → f x = f y → x = y.
Proof.
  induction l as [|a l IH]; simpl; intros Hnd Hx Hy Hf.
  - by apply elem_of_nil in Hx.
  - apply NoDup_cons in Hnd as [Ha Hnd].
    apply elem_of_cons in Hx as [->|Hx]; apply elem_of_cons in Hy as [->|Hy]; auto.
    + exfalso. apply Ha. rewrite Hf. apply list_elem_of_fmap. eauto.
    + exfalso. apply Ha. rewrite <- Hf. apply list_elem_of_fmap. eauto.
Qed.

(** With pairwise different ids the index returns every resource under
    its own lower-cased id. *)
Lemma buildResourceMap_unique rs r :
  uniqueIds rs → r ∈ rs → buildResourceMap rs !! toLowerCase (id r) = Some r.
Proof.
  intros Hu Hr.
  assert (Hs : is_Some (buildResourceMap rs !! toLowerCase (id r))).
  { apply buildResourceMap_is_Some, elem_of_lowerIds. eauto. }
  destruct Hs as [t Ht]. rewrite Ht. f_equal.
  apply buildResourceMap_lookup in Ht as [Hin Hk].
  by apply (NoDup_fmap_eq (fun r => toLowerCase (id r)) rs).
Qed.

Lemma uniqueIds_NoDup_ids rs : uniqueIds rs → NoDup (id <$> rs).
Proof.
  unfold uniqueIds. intros H.
  rewrite (list_fmap_compose id toLowerCase) in H.
  by apply NoDup_fmap_1 in H.
Qed.

Lemma uniqueIds_NoDup rs : uniqueIds rs → NoDup rs.
Proof. unfold uniqueIds. apply NoDup_fmap_1. Qed.

Lemma uniqueIds_filter (P : resource → Prop) `{!∀ r, Decision (P r)} rs :
  uniqueIds rs → uniqueIds (filter P rs).
Proof.
  unfold uniqueIds. induction rs as [|r rs IH]; [done|].
  rewrite fmap_cons, NoDup_cons. intros [Hr Hnd].
  rewrite filter_cons. destruct (decide (P r)); [|by auto].
  rewrite fmap_cons, NoDup_cons. split; [|by auto].
  intros (x & Hx & Hin)%list_elem_of_fmap. apply Hr.
  apply list_elem_of_fmap. exists x. split; [done|].
  by apply list_elem_of_filter in Hin as [_ ?].
Qed.

End IndexFacts.

(** ** The relationship graph *)

Module GraphFacts.
Import Str Json Dashboard JsonFacts IndexFacts.

Section Scan.
Variable M : gmap string resource.
Variable F : gset string.

(** When the string branch emits an edge. *)
Lemma elem_of_scanString r s e :
  e ∈ scanString M F r s ↔
  startsWith (toLowerCase s) "/subscriptions/" = true
  ∧ ∃ t, M !! toLowerCase s = Some t
         ∧ toLowerCase s ∈ F
         ∧ toLowerCase (id r) ≠ toLowerCase s
         ∧ e = {| from := id r; to := id t |}.
Proof.
  unfold scanString.
  destruct (startsWith (toLowerCase s) "/subscriptions/") eqn:Hp;
    [|split; [by intros ?%elem_of_nil | by intros [? _]]].
  destruct (M !! toLowerCase s) as [t|] eqn:Ht;
    [|split; [by intros ?%elem_of_nil | by intros [_ (? & ? & _)]]].
  repeat case_bool_decide.
  - rewrite list_elem_of_singleton. split.
    + intros ->. split; [done|]. by exists t.
    + intros [_ (t' & Ht' & _ & _ & ->)]. by injection Ht' as ->.
  - split; [by intros ?%elem_of_nil|]. intros [_ (? & _ & _ & Hne & _)]. tauto.
  - split; [by intros ?%elem_of_nil|]. intros [_ (? & _ & Hin & _)]. tauto.
Qed.

(** The scan reads a leaf through its lower-cased value only. *)
Lemma scanString_case_blind r s s' :
  toLowerCase s = toLowerCase s' → scanString M F r s = scanString M F r s'.
Proof. unfold scanString. by intros ->. Qed.

(** The string branch emits at most one edge. *)
Lemma scanString_length r s : (length (scanString M F r s) ≤ 1)%nat.
Proof.
  unfold scanString.
  destruct (startsWith _ _); [|simpl; lia].
  destruct (M !! _); [|simpl; lia].
  repeat case_bool_decide; simpl; lia.
Qed.

(** A leaf that does not start with the prefix emits nothing. *)
Lemma scanString_no_prefix r s :
  startsWith (toLowerCase s) "/subscriptions/" = false → scanString M F r s = [].
Proof. unfold scanString. by intros ->. Qed.

Lemma scanString_chars r s : flat_map (scanString M F r) (chars s) = [].
Proof.
  induction s as [|c s IH]; simpl; [done|].
  rewrite IH, app_nil_r. apply scanString_no_prefix.
  exact (StrFacts.startsWith_char (lowerAscii c) "/" "s" "ubscriptions/").
Qed.

(** Scanning a member tests exactly its string leaves, in order. *)
Lemma scanMember_leaves r v :
  scanMember M F r v = flat_map (scanString M F r) (leaves v).
Proof.
  induction v as [ | b | n | s | items IH | fields IH ] using json_nested_ind;
    simpl; try done.
  - by rewrite app_nil_r.
  - rewrite flat_map_flat_map. by apply flat_map_ext_Forall.
  - rewrite flat_map_flat_map. by apply flat_map_ext_Forall.
Qed.

(** Scanning the properties tests exactly the nested string leaves. *)
Lemma scanProperties_leaves r props :
  scanProperties M F r props = flat_map (scanString M F r) (nestedLeaves props).
Proof.
  destruct props as [[ | b | n | s | items | fields ]|]; simpl; try done.
  - apply scanString_chars.
  - rewrite flat_map_flat_map. apply flat_map_ext_Forall, Forall_forall.
    intros v _. apply scanMember_leaves.
  - rewrite flat_map_flat_map. apply flat_map_ext_Forall, Forall_forall.
    intros kv _. apply scanMember_leaves.
Qed.

Lemma scanProperties_noProperties r : noProperties r → scanProperties M F r (properties r) = [].
Proof. by intros [-> | [-> | ->]]. Qed.

End Scan.

Section Visit.
Variable getIcon : option (string → string).
Variable M : gmap string resource.
Variable F : gset string.

Let visit := visitResource getIcon M F.

(** What a round that returns has done. *)
Lemma visitResource_Returns t r t' :
  visit t r = Returns t' →
  edges t' = edges t ++ scanProperties M F r (properties r)
  ∧ ((id r ∈ addedNodes t ∧ nodes t' = nodes t ∧ addedNodes t' = addedNodes t)
     ∨ ((id r ∉ addedNodes t)
        ∧ ∃ icon, callGetIcon getIcon (type r) = Returns icon
                  ∧ nodes t' = nodes t ++ [nodeWith icon r]
                  ∧ addedNodes t' = {[ id r ]} ∪ addedNodes t)).
Proof.
  unfold visit, visitResource, mkNode, callGetIcon.
  case_bool_decide as Hadded.
  - intros [= <-]. simpl. split; [done|]. by left.
  - destruct getIcon as [f|]; [|done]. intros [= <-]. simpl. split; [done|].
    right. split; [done|]. by exists (f (type r)).
Qed.

(** A round raises exactly when it needs a node and [getIcon] is not
    bound. *)
Lemma visitResource_Throws t r :
  visit t r = Throws ↔ (id r ∉ addedNodes t) ∧ getIcon = None.
Proof.
  unfold visit, visitResource, mkNode, callGetIcon.
  case_bool_decide as Hadded; [by split; [|intros [? _]]|].
  destruct getIcon; by split; [|intros [_ ?]].
Qed.

Lemma visitResource_modelled t r : visit t r ≠ NotModelled.
Proof.
  unfold visit, visitResource, mkNode, callGetIcon.
  case_bool_decide; [done|]. by destruct getIcon.
Qed.

Lemma fold_visit_modelled rs t : foldOutcome visit rs t ≠ NotModelled.
Proof.
  revert t. induction rs as [|r rs IH]; intros t; [done|].
  cbn [foldOutcome]. destruct (visit t r) as [t1| |] eqn:Hv; [apply IH|done|].
  by apply visitResource_modelled in Hv.
Qed.

Lemma fold_visit_edges rs t t' :
  foldOutcome visit rs t = Returns t' →
  edges t' = edges t ++ flat_map (fun r => scanProperties M F r (properties r)) rs.
Proof.
  revert t. induction rs as [|r rs IH]; intros t; cbn [foldOutcome].
  - intros [= <-]. simpl. by rewrite app_nil_r.
  - destruct (visit t r) as [t1| |] eqn:Hv; [|done..].
    intros Hfold. apply IH in Hfold. apply visitResource_Returns in Hv as [He _].
    rewrite Hfold, He. simpl. by rewrite <- app_assoc.
Qed.

(** Every id that was added has a node, and nodes are never removed. *)
Lemma fold_visit_node_ids rs t t' x :
  foldOutcome visit rs t = Returns t' →
  (∀ y, y ∈ addedNodes t → y ∈ node_id <$> nodes t) →
  x ∈ node_id <$> nodes t ∨ x ∈ id <$> rs →
  x ∈ node_id <$> nodes t'.
Proof.
  revert t. induction rs as [|r rs IH]; intros t; cbn [foldOutcome].
  - intros [= <-] _ [Hx|Hx]; [done|]. by apply elem_of_nil in Hx.
  - destruct (visit t r) as [t1| |] eqn:Hv; [|done..].
    intros Hfold Hinv Hx.
    apply visitResource_Returns in Hv as [_ Hv].
    apply (IH t1 Hfold).
    + intros y.
      destruct Hv as [(_ & -> & ->)|(_ & icon & _ & -> & ->)]; [by auto|].
      rewrite fmap_app, elem_of_app, elem_of_union, elem_of_singleton. simpl.
      intros [->|Hy]; [right; by apply list_elem_of_singleton | left; auto].
    + rewrite fmap_cons, elem_of_cons in Hx.
      destruct Hv as [(Hadded & -> & _)|(_ & icon & _ & -> & _)].
      * destruct Hx as [Hx|[->|Hx]]; auto.
      * rewrite fmap_app, elem_of_app. simpl.
        destruct Hx as [Hx|[->|Hx]]; auto.
        left. right. by apply list_elem_of_singleton.
Qed.

(** With pairwise different ids every resource gets its own node: the
    nodes are the node literals of the resources, in their order. *)
Lemma fold_visit_nodes_NoDup rs t t' :
  foldOutcome visit rs t = Returns t' →
  NoDup (id <$> rs) →
  (∀ r, r ∈ rs → id r ∉ addedNodes t) →
  ∃ ns, forEachOutcome (mkNode getIcon) rs = Returns ns ∧ nodes t' = nodes t ++ ns.
Proof.
  revert t. induction rs as [|r rs IH]; intros t; cbn [foldOutcome].
  - intros [= <-] _ _. exists []. by rewrite app_nil_r.
  - destruct (visit t r) as [t1| |] eqn:Hv; [|done..].
    intros Hfold Hnd Hfresh.
    rewrite fmap_cons, NoDup_cons in Hnd. destruct Hnd as [Hr Hnd].
    apply visitResource_Returns in Hv as [_ Hv].
    destruct Hv as [(Hadded & _)|(_ & icon & Hicon & Hnodes & Hadded)].
    { exfalso. apply (Hfresh r); [by apply elem_of_cons; left | done]. }
    destruct (IH t1 Hfold Hnd) as (ns & Hns & Ht').
    + intros r' Hr'. rewrite Hadded.
      assert (id r' ≠ id r).
      { intros Heq. apply Hr. rewrite <- Heq. apply list_elem_of_fmap. eauto. }
      assert (id r' ∉ addedNodes t).
      { apply Hfresh. by apply elem_of_cons; right. }
      set_solver.
    + exists (nodeWith icon r :: ns). split.
      * cbn [forEachOutcome]. rewrite Hns.
        unfold mkNode. by rewrite Hicon.
      * rewrite Ht', Hnodes. by rewrite <- app_assoc.
Qed.

End Visit.

(** With [getIcon] bound the loop returns. *)
Lemma fold_visit_bound f M F rs t :
  ∃ t', foldOutcome (visitResource (Some f) M F) rs t = Returns t'.
Proof.
  revert t. induction rs as [|r rs IH]; intros t; cbn [foldOutcome]; [by eexists|].
  destruct (visitResource (Some f) M F t r) as [t1| |] eqn:Hv.
  - apply IH.
  - by apply visitResource_Throws in Hv as [_ ?].
  - by apply visitResource_modelled in Hv.
Qed.

Lemma renderNetworkTopology_bound f M rs :
  ∃ g, renderNetworkTopology (Some f) M rs = Returns g.
Proof.
  unfold renderNetworkTopology.
  destruct (fold_visit_bound f M (lowerIds rs) rs emptyTopology) as [t ->].
  by eexists.
Qed.

(** Without it the loop raises at the first resource: the topology is
    rendered for the empty collection only. *)
Lemma renderNetworkTopology_unbound M rs :
  renderNetworkTopology None M rs
  = match rs with [] => Returns noData | _ :: _ => Throws end.
Proof. by destruct rs. Qed.

Lemma renderNetworkTopology_modelled getIcon M rs :
  renderNetworkTopology getIcon M rs ≠ NotModelled.
Proof.
  unfold renderNetworkTopology.
  destruct (foldOutcome _ rs emptyTopology) eqn:Hf; [done..|].
  by apply fold_visit_modelled in Hf.
Qed.

(** Only the missing binding makes the loop raise. *)
Lemma renderNetworkTopology_Throws getIcon M rs :
  renderNetworkTopology getIcon M rs = Throws → getIcon = None ∧ rs ≠ [].
Proof.
  destruct getIcon as [f|].
  - destruct (renderNetworkTopology_bound f M rs) as [g ->]. done.
  - rewrite renderNetworkTopology_unbound. by destruct rs.
Qed.

(** The topology of no resources shows nothing. *)
Lemma renderNetworkTopology_nil getIcon M :
  renderNetworkTopology getIcon M [] = Returns noData.
Proof. reflexivity. Qed.

Lemma renderNetworkTopology_edges getIcon M rs g :
  renderNetworkTopology getIcon M rs = Returns g →
  data_edges g
  = flat_map (fun r => flat_map (scanString M (lowerIds rs) r)
                                (nestedLeaves (properties r))) rs.
Proof.
  unfold renderNetworkTopology.
  destruct (foldOutcome _ rs emptyTopology) as [t| |] eqn:Hf; [|done..].
  intros [= <-]. cbn [data_edges].
  rewrite (fold_visit_edges _ _ _ _ _ _ Hf). simpl.
  apply flat_map_ext_Forall, Forall_forall. intros r _.
  apply scanProperties_leaves.
Qed.

Lemma renderNetworkTopology_node_ids getIcon M rs g r :
  renderNetworkTopology getIcon M rs = Returns g →
  r ∈ rs → id r ∈ node_id <$> data_nodes g.
Proof.
  unfold renderNetworkTopology.
  destruct (foldOutcome _ rs emptyTopology) as [t| |] eqn:Hf; [|done..].
  intros [= <-] Hr. cbn [data_nodes].
  apply (fold_visit_node_ids _ _ _ _ _ _ _ Hf).
  - simpl. intros y Hy. by apply elem_of_empty in Hy.
  - right. apply list_elem_of_fmap. eauto.
Qed.

Lemma renderNetworkTopology_nodes getIcon M rs g :
  renderNetworkTopology getIcon M rs = Returns g →
  NoDup (id <$> rs) →
  forEachOutcome (mkNode getIcon) rs = Returns (data_nodes g).
Proof.
  unfold renderNetworkTopology.
  destruct (foldOutcome _ rs emptyTopology) as [t| |] eqn:Hf; [|done..].
  intros [= <-] Hnd. cbn [data_nodes].
  destruct (fold_visit_nodes_NoDup _ _ _ _ _ _ Hf Hnd) as (ns & Hns & ->); [|done].
  intros r _. simpl. apply not_elem_of_empty.
Qed.

(** The edges of a rendered topology, one by one. *)
Lemma elem_of_edges getIcon M rs g e :
  renderNetworkTopology getIcon M rs = Returns g →
  e ∈ data_edges g ↔
  ∃ r s, r ∈ rs ∧ s ∈ nestedLeaves (properties r)
         ∧ e ∈ scanString M (lowerIds rs) r s.
Proof.
  intros ->%renderNetworkTopology_edges. rewrite elem_of_flat_map.
  split.
  - intros (r & Hr & (s & Hs & He)%elem_of_flat_map). eauto.
  - intros (r & s & Hr & Hs & He). exists r. split; [done|].
    apply elem_of_flat_map. eauto.
Qed.

(** Every edge the network view shows after a call was emitted by the
    scan of a leaf of one of the resources. *)
Lemma elem_of_drawn_edges getIcon M rs e :
  e ∈ data_edges (drawn (renderNetworkTopology getIcon M rs)) →
  ∃ r s, r ∈ rs ∧ s ∈ nestedLeaves (properties r)
         ∧ e ∈ scanString M (lowerIds rs) r s.
Proof.
  destruct (renderNetworkTopology getIcon M rs) as [g| |] eqn:Hg;
    [|by intros ?%elem_of_nil..].
  simpl. by intros ?%(elem_of_edges _ _ _ _ _ Hg).
Qed.

End GraphFacts.

(** ** Edges of the built graph *)

Module EdgeFacts.
Import Str Json Dashboard JsonFacts IndexFacts GraphFacts Samples.

(** C1, as the code has it.  For every resource [r] of the collection
    and every string leaf nested in [r.properties]: when the lower-cased
    leaf starts with ["/subscriptions/"], is a key of the identifier
    index and is not [r]'s own lower-cased id, the scan of
    [r.properties] emits the edge from [r.id] to the id of the indexed
    resource, and the graph that [renderNetworkTopology] builds for the
    collection contains it; no graph is built only when [getIcon] is not
    bound.  The leaf is compared in lower case, so a reference written
    in another letter case emits the edge as well. *)
Theorem prefixed_reference_gives_edge getIcon rs r s t :
  r ∈ rs →
  s ∈ nestedLeaves (properties r) →
  startsWith (toLowerCase s) "/subscriptions/" = true →
  buildResourceMap rs !! toLowerCase s = Some t →
  toLowerCase (id r) ≠ toLowerCase s →
  {| from := id r; to := id t |}
    ∈ scanProperties (buildResourceMap rs) (lowerIds rs) r (properties r)
  ∧ match fullGraph getIcon rs with
    | Returns g => {| from := id r; to := id t |} ∈ data_edges g
    | Throws => getIcon = None
    | NotModelled => False
    end.
Proof.
  intros Hr Hs Hp Ht Hne.
  assert (He : {| from := id r; to := id t |}
                 ∈ scanString (buildResourceMap rs) (lowerIds rs) r s).
  { apply elem_of_scanString. split; [done|]. exists t.
    split; [done|]. split; [|done].
    apply buildResourceMap_is_Some. by exists t. }
  split.
  - rewrite scanProperties_leaves. apply elem_of_flat_map. eauto.
  - unfold fullGraph.
    destruct (renderNetworkTopology getIcon (buildResourceMap rs) rs) as [g| |] eqn:Hg.
    + apply (elem_of_edges _ _ _ _ _ Hg). eauto.
    + by apply renderNetworkTopology_Throws in Hg as [? _].
    + by apply renderNetworkTopology_modelled in Hg.
Qed.

Lemma prefixed_reference_gives_edge_witness :
  {| from := vmId; to := nicId |}
    ∈ scanProperties (buildResourceMap [vm; nic]) (lowerIds [vm; nic]) vm (properties vm)
  ∧ match fullGraph None [vm; nic] with
    | Returns g => {| from := vmId; to := nicId |} ∈ data_edges g
    | Throws => @None (string → string) = None
    | NotModelled => False
    end.
Proof.
  apply (prefixed_reference_gives_edge None [vm; nic] vm nicRef nic).
  - in_list.
  - in_list.
  - reflexivity.
  - vm_compute. reflexivity.
  - vm_compute. discriminate.
Defined.

(** C1 fails without the prefix: the leaf ["VNET-1"] lower-cases to the
    id of another resource of the collection, the scan emits no edge for
    it, and no graph has the edge, whatever [getIcon] is bound to. *)
Lemma unprefixed_reference_gives_no_edge :
  subnet ∈ [subnet; vnet]
  ∧ "VNET-1" ∈ nestedLeaves (properties subnet)
  ∧ buildResourceMap [subnet; vnet] !! toLowerCase "VNET-1" = Some vnet
  ∧ id vnet ≠ id subnet
  ∧ scanProperties (buildResourceMap [subnet; vnet]) (lowerIds [subnet; vnet])
                   subnet (properties subnet) = []
  ∧ ∀ getIcon,
      {| from := id subnet; to := id vnet |}
        ∉ data_edges (drawn (fullGraph getIcon [subnet; vnet])).
Proof.
  split; [in_list|].
  split; [in_list|].
  split; [vm_compute; reflexivity|].
  split; [discriminate|].
  split; [vm_compute; reflexivity|].
  intros getIcon (r & s & Hr & Hs & He)%elem_of_drawn_edges.
  apply elem_of_scanString in He as (Hp & _).
  assert (Hleaf : s = "VNET-1").
  { apply elem_of_cons in Hr as [->|Hr].
    - simpl in Hs. by apply list_elem_of_singleton in Hs.
    - apply list_elem_of_singleton in Hr as ->. simpl in Hs.
      by apply elem_of_nil in Hs. }
  subst s. vm_compute in Hp. discriminate.
Qed.

(** The scan never emits a self-loop, whatever is scanned. *)
Lemma scanProperties_no_self_loop rs F r obj e :
  e ∈ scanProperties (buildResourceMap rs) F r obj →
  from e ≠ to e ∧ toLowerCase (from e) ≠ toLowerCase (to e).
Proof.
  rewrite scanProperties_leaves.
  intros (s & _ & He)%elem_of_flat_map.
  apply elem_of_scanString in He as (_ & t & Ht & _ & Hne & ->). simpl.
  apply buildResourceMap_lookup in Ht as [_ Ht].
  assert (toLowerCase (id r) ≠ toLowerCase (id t)) by congruence.
  split; congruence.
Qed.

(** C7.  The built graph has no self-loop: the two ends of every edge
    differ, also when letter case is ignored, whatever a resource's own
    properties say about its own id.  This holds whatever [getIcon] is
    bound to, and already of every edge the scan emits. *)
Theorem no_self_loops getIcon rs :
  Forall (fun e => from e ≠ to e ∧ toLowerCase (from e) ≠ toLowerCase (to e))
         (data_edges (drawn (fullGraph getIcon rs)))
  ∧ ∀ F r obj,
      Forall (fun e => from e ≠ to e ∧ toLowerCase (from e) ≠ toLowerCase (to e))
             (scanProperties (buildResourceMap rs) F r obj).
Proof.
  split.
  - apply Forall_forall. intros e (r & s & Hr & Hs & He)%elem_of_drawn_edges.
    apply (scanProperties_no_self_loop rs (lowerIds rs) r (properties r)).
    rewrite scanProperties_leaves. apply elem_of_flat_map. eauto.
  - intros F r obj. apply Forall_forall. intros e.
    apply scanProperties_no_self_loop.
Qed.

(** C10.  Every edge of the built graph comes from a string leaf whose
    lower-cased value starts with ["/subscriptions/"], and a string leaf
    either has that prefix or emits nothing when it is scanned, whatever
    the index holds for it. *)
Theorem edges_need_subscription_prefix getIcon rs :
  Forall (fun e => ∃ r s, r ∈ rs ∧ s ∈ nestedLeaves (properties r)
                          ∧ from e = id r
                          ∧ startsWith (toLowerCase s) "/subscriptions/" = true
                          ∧ toLowerCase (to e) = toLowerCase s)
         (data_edges (drawn (fullGraph getIcon rs)))
  ∧ ∀ M F r s, startsWith (toLowerCase s) "/subscriptions/" = true
               ∨ scanString M F r s = [].
Proof.
  split.
  2: { intros M F r s.
       destruct (startsWith (toLowerCase s) "/subscriptions/") eqn:Hp; [by left|].
       right. by apply scanString_no_prefix. }
  apply Forall_forall. intros e (r & s & Hr & Hs & He)%elem_of_drawn_edges.
  apply elem_of_scanString in He as (Hp & t & Ht & _ & _ & ->). simpl.
  apply buildResourceMap_lookup in Ht as [_ Ht].
  exists r, s. by rewrite Ht.
Qed.

(** C9 on the generated page.  Scanning a resource whose [properties] is
    absent emits no edge, but the resource does not become a node: the
    node literal calls [getIcon], which the script does not define, so
    [renderNetworkTopology] raises for the collection and the network
    view stays empty. *)
Theorem resource_without_properties_raises :
  noProperties nic
  ∧ (∀ M F, scanProperties M F nic (properties nic) = [])
  ∧ fullGraph None [nic] = Throws
  ∧ fullGraph None [vm; nic] = Throws
  ∧ topologyView
      (initializeDashboard None (Some [("Microsoft.Network/networkInterfaces", [nic])]))
    = noData.
Proof.
  split; [by left|]. split; [by intros M F|].
  split; [reflexivity|]. split; reflexivity.
Qed.

Lemma filter_none {A} (P : A → Prop) `{!∀ a, Decision (P a)} (l : list A) :
  (∀ a, a ∈ l → ¬ P a) → filter P l = [].
Proof.
  induction l as [|a l IH]; intros Hall; [done|].
  rewrite filter_cons_False by (apply Hall, elem_of_cons; by left).
  apply IH. intros a' Ha'. apply Hall, elem_of_cons. by right.
Qed.

Lemma filter_flat_map {A B} (P : B → Prop) `{!∀ b, Decision (P b)}
    (g : A → list B) (l : list A) :
  filter P (flat_map g l) = flat_map (fun a => filter P (g a)) l.
Proof.
  induction l as [|a l IH]; simpl; [done|]. by rewrite filter_app, IH.
Qed.

Lemma flat_map_filter {A B} (P : A → Prop) `{!∀ a, Decision (P a)}
    (g : A → list B) (l : list A) :
  flat_map g (filter P l) = flat_map (fun a => if decide (P a) then g a else []) l.
Proof.
  induction l as [|a l IH]; simpl; [done|].
  rewrite filter_cons. destruct (decide (P a)); simpl; by rewrite IH.
Qed.

Lemma flat_map_nil {A B} (l : list A) : flat_map (fun _ => @nil B) l = [].
Proof. induction l; simpl; auto. Qed.

(** Out of a list without repetitions only [a] contributes when the
    other elements yield nothing that satisfies [P]. *)
Lemma filter_flat_map_only {A B} (P : B → Prop) `{!∀ b, Decision (P b)}
    (g : A → list B) (l : list A) (a : A) :
  NoDup l → a ∈ l →
  (∀ a', a' ∈ l → a' ≠ a → ∀ b, b ∈ g a' → ¬ P b) →
  filter P (flat_map g l) = filter P (g a).
Proof.
  induction l as [|x l IH]; intros Hnd Ha Hothers.
  - by apply elem_of_nil in Ha.
  - apply NoDup_cons in Hnd as [Hx Hnd]. simpl. rewrite filter_app.
    apply elem_of_cons in Ha as [->|Ha].
    + rewrite (filter_none P (flat_map g l)); [by rewrite app_nil_r|].
      intros b (a' & Ha' & Hb)%elem_of_flat_map.
      apply (Hothers a'); [by apply elem_of_cons; right | | done].
      intros ->. done.
    + rewrite (filter_none P (g x)).
      * simpl. apply IH; [done | done |].
        intros a' Ha' Hne. apply Hothers; [by apply elem_of_cons; right | done].
      * apply Hothers; [by apply elem_of_cons; left|]. intros ->. done.
Qed.

(** What one leaf of [r] adds to the copies of the edge from [r] to [t]. *)
Lemma scanString_copies rs r t s :
  uniqueIds rs → r ∈ rs → t ∈ rs → r ≠ t →
  filter (fun e => e = {| from := id r; to := id t |})
         (scanString (buildResourceMap rs) (lowerIds rs) r s)
  = if decide (refersTo s t) then [ {| from := id r; to := id t |} ] else [].
Proof.
  intros Hu Hr Ht Hne.
  set (e := {| from := id r; to := id t |}).
  destruct (decide (refersTo s t)) as [[Hp Hs]|Hno].
  - assert (He : e ∈ scanString (buildResourceMap rs) (lowerIds rs) r s).
    { apply elem_of_scanString. split; [done|]. exists t.
      rewrite Hs. split; [by apply buildResourceMap_unique|].
      split; [apply elem_of_lowerIds; eauto|]. split; [|done].
      intros Heq. apply Hne.
      by apply (NoDup_fmap_eq (fun r => toLowerCase (id r)) rs). }
    pose proof (scanString_length (buildResourceMap rs) (lowerIds rs) r s) as Hlen.
    destruct (scanString _ _ r s) as [|e1 [|e2 l]]; simpl in Hlen; [| |lia].
    + by apply elem_of_nil in He.
    + apply list_elem_of_singleton in He. rewrite <- He.
      rewrite (filter_singleton _ e []). by rewrite decide_True.
  - apply filter_none. intros e' He' ->.
    apply elem_of_scanString in He' as (Hp & t' & Ht' & _ & _ & Heq).
    apply buildResourceMap_lookup in Ht' as [_ Hk].
    injection Heq as Heq. apply Hno. split; [done|]. by rewrite <- Hk, Heq.
Qed.

Lemma length_filter_flat_map {A B} (P : B → Prop) `{!∀ b, Decision (P b)}
    (Q : A → Prop) `{!∀ a, Decision (Q a)} (g : A → list B) (x : B) (l : list A) :
  (∀ a, filter P (g a) = if decide (Q a) then [x] else []) →
  length (filter P (flat_map g l)) = length (filter Q l).
Proof.
  intros Hg. induction l as [|a l IH]; simpl; [done|].
  rewrite filter_app, length_app, Hg, IH, filter_cons.
  by destruct (decide (Q a)).
Qed.

(** The scan does not deduplicate.  In a collection with pairwise
    different ids the rounds of the loop emit the pair from [r] to
    another resource [t] once for every string leaf of [r.properties]
    that refers to [t]. *)
Lemma scan_once_per_referring_leaf rs r t :
  uniqueIds rs → r ∈ rs → t ∈ rs → r ≠ t →
  length (filter (fun e => e = {| from := id r; to := id t |})
                 (flat_map (fun r => flat_map (scanString (buildResourceMap rs) (lowerIds rs) r)
                                              (nestedLeaves (properties r))) rs))
  = length (filter (fun s => refersTo s t) (nestedLeaves (properties r))).
Proof.
  intros Hu Hr Ht Hne.
  rewrite (filter_flat_map_only _ _ rs r); [| by apply uniqueIds_NoDup | done |].
  - apply (length_filter_flat_map _ (fun s => refersTo s t) _
             {| from := id r; to := id t |}).
    intros s. by apply scanString_copies.
  - intros r' Hr' Hne' e (s & _ & He)%elem_of_flat_map ->.
    apply elem_of_scanString in He as (_ & t' & _ & _ & _ & Heq).
    injection Heq as Hid _.
    apply Hne'. apply (NoDup_fmap_eq (fun r => toLowerCase (id r)) rs); auto.
    simpl. by rewrite Hid.
Qed.

(** Two properties that name the same target make the scan emit the
    pair twice. *)
Example scan_repeats_edge :
  scanProperties (buildResourceMap [vmTwice; nic]) (lowerIds [vmTwice; nic])
                 vmTwice (properties vmTwice)
  = [ {| from := vmId; to := nicId |}; {| from := vmId; to := nicId |} ].
Proof. vm_compute. reflexivity. Qed.

End EdgeFacts.

(** ** The page and its views *)

Module PageFacts.
Import Str Json Dashboard JsonFacts IndexFacts GraphFacts Samples.

(** *** Category counts *)

Lemma countCategory_cons c r rs :
  countCategory c (r :: rs)
  = ((if decide (category r = c) then 1 else 0) + countCategory c rs)%nat.
Proof.
  unfold countCategory. rewrite filter_cons.
  by destruct (decide (category r = c)).
Qed.

Lemma countCategory_pos c rs :
  (0 < countCategory c rs)%nat ↔ ∃ r, r ∈ rs ∧ category r = c.
Proof.
  unfold countCategory. split.
  - destruct (filter _ rs) as [|r l] eqn:Hf; simpl; [lia|]. intros _.
    assert (Hr : r ∈ filter (fun r => category r = c) rs)
      by (rewrite Hf; apply list_elem_of_here).
    apply list_elem_of_filter in Hr as [? ?]. eauto.
  - intros (r & Hr & Hc).
    assert (Hin : r ∈ filter (fun r => category r = c) rs)
      by (by apply list_elem_of_filter).
    destruct (filter _ rs); [by apply elem_of_nil in Hin | simpl; lia].
Qed.

(** The counting loop adds, for every category, the number of its
    resources to what the table held before. *)
Lemma fold_countStep rs (m : gmap string nat) c :
  fold_left countStep rs m !! c
  = if decide (countCategory c rs = 0)%nat then m !! c
    else Some (default 0 (m !! c) + countCategory c rs)%nat.
Proof.
  revert m. induction rs as [|r rs IH]; intros m; simpl.
  - reflexivity.
  - rewrite IH, countCategory_cons. unfold countStep.
    destruct (decide (category r = c)) as [->|Hne].
    + rewrite lookup_insert_eq.
      destruct (decide (countCategory c rs = 0)%nat) as [H0|H0];
        destruct (decide ((1 + countCategory c rs)%nat = 0%nat)) as [H1|H1];
        try lia; simpl; f_equal; lia.
    + rewrite lookup_insert_ne by done.
      destruct (decide (countCategory c rs = 0)%nat) as [H0|H0];
        destruct (decide ((0 + countCategory c rs)%nat = 0%nat)) as [H1|H1];
        try lia; simpl; done.
Qed.

Lemma categoryCounts_lookup rs c :
  categoryCounts rs !! c
  = if decide (countCategory c rs = 0)%nat then None else Some (countCategory c rs).
Proof.
  unfold categoryCounts. rewrite fold_countStep, lookup_empty.
  by destruct (decide _).
Qed.

Lemma elem_of_sortedKeys (m : gmap string nat) c : c ∈ sortedKeys m ↔ is_Some (m !! c).
Proof.
  unfold sortedKeys. rewrite merge_sort_Permutation, elem_of_elements.
  apply elem_of_dom.
Qed.

(** The cards rendered from a collection: one per category that has
    resources, with their number. *)
Lemma elem_of_cards rs c n :
  {| card_category := c; card_count := n |} ∈ renderDashboardView [] rs
  ↔ n = countCategory c rs ∧ (0 < n)%nat.
Proof.
  simpl. rewrite list_elem_of_fmap. split.
  - intros (c' & [= -> ->] & Hc). apply elem_of_sortedKeys in Hc.
    rewrite categoryCounts_lookup in Hc |- *.
    destruct (decide (countCategory c' rs = 0)%nat); simpl.
    + by destruct Hc.
    + split; [done | lia].
  - intros [-> Hpos]. exists c. rewrite elem_of_sortedKeys, categoryCounts_lookup.
    rewrite decide_False by lia. simpl. split; [done | by eexists].
Qed.

(** The cards are rendered once. *)
Lemma renderDashboardView_again cards rs :
  renderDashboardView (renderDashboardView cards rs) rs = renderDashboardView cards rs.
Proof.
  destruct cards as [|card cards]; [|done].
  destruct (renderDashboardView [] rs) as [|card cards] eqn:Hcards; [|done].
  exact Hcards.
Qed.

(** *** Statistics *)

Lemma size_list_to_set_remove_dups `{Countable A} (l : list A) :
  size (list_to_set l : gset A) = length (remove_dups l).
Proof.
  rewrite <- (size_list_to_set (C := gset A) (remove_dups l))
    by apply NoDup_remove_dups.
  f_equal. apply set_eq. intros x.
  by rewrite !elem_of_list_to_set, elem_of_remove_dups.
Qed.

(** *** Pages reached from the initial one *)

Section Reach.
Variable getIcon : option (string → string).

(** A call of [applyFilters] that raises leaves the network and the
    security view as they were; on a page of the form [pageFor] they
    showed nothing then, since [renderNetworkTopology] raises for every
    collection but the empty one. *)
Lemma applyFilters_pageFor all f f' :
  applyFilters getIcon (setFilter f' (pageFor getIcon all f)) = pageFor getIcon all f'.
Proof.
  unfold applyFilters, setFilter, pageFor.
  cbn [allResources resourceMap activeFilters cardsView topologyView securityView].
  rewrite (renderDashboardView_again [] all).
  destruct (renderNetworkTopology getIcon (buildResourceMap all)
              (filterResources f' all)) as [g'| |] eqn:Hg'.
  - reflexivity.
  - apply renderNetworkTopology_Throws in Hg' as [-> _].
    rewrite renderNetworkTopology_unbound.
    by destruct (filterResources f all).
  - by apply renderNetworkTopology_modelled in Hg'.
Qed.

Lemma initializeDashboard_pageFor by_type :
  initializeDashboard getIcon by_type = pageFor getIcon (loadResources by_type) None.
Proof.
  unfold initializeDashboard, applyFilters, pageFor.
  cbn [allResources resourceMap activeFilters cardsView topologyView securityView
       blankPage].
  by destruct (renderNetworkTopology getIcon _ _).
Qed.

Lemma step_pageFor all f a :
  step getIcon (pageFor getIcon all f) a = pageFor getIcon all (nextFilter f a).
Proof.
  destruct a as [c|]; simpl; unfold clickCard, resetFilters;
    by rewrite applyFilters_pageFor.
Qed.

Lemma clickCard_pageFor all f c :
  clickCard getIcon c (pageFor getIcon all f)
  = pageFor getIcon all (nextFilter f (ClickCard c)).
Proof. exact (step_pageFor all f (ClickCard c)). Qed.

(** Every page reached by clicks and resets is the page rendered from
    scratch for the whole collection and the filter then active. *)
Lemma run_pageFor all f actions :
  run getIcon (pageFor getIcon all f) actions
  = pageFor getIcon all (fold_left nextFilter actions f).
Proof.
  revert f. induction actions as [|a actions IH]; intros f; simpl; [done|].
  by rewrite step_pageFor, IH.
Qed.


End Reach.

End PageFacts.

(** ** Ordering of security rules *)

Module RuleFacts.
Import Json Dashboard Samples.

Lemma insertRule_perm x l : insertRule x l ≡ₚ x :: l.
Proof.
  induction l as [|y l IH]; simpl; [done|].
  destruct (comparePriority x y <=? 0)%Z; [done|].
  rewrite IH. apply Permutation_swap.
Qed.

Lemma orderRules_perm l : orderRules l ≡ₚ l.
Proof.
  induction l as [|x l IH]; simpl; [done|].
  by rewrite insertRule_perm, IH.
Qed.

Lemma insertRule_sorted x l :
  StronglySorted lePriority l → StronglySorted lePriority (insertRule x l).
Proof.
  induction 1 as [|y l Hl IH Hy]; simpl.
  - repeat constructor.
  - unfold comparePriority.
    destruct (Z.leb_spec (fst x - fst y) 0) as [Hle|Hgt].
    + constructor; [by constructor|].
      constructor; [unfold lePriority; lia|].
      eapply Forall_impl; [exact Hy|]. unfold lePriority. simpl. intros; lia.
    + constructor; [done|].
      rewrite insertRule_perm. constructor; [unfold lePriority; lia | done].
Qed.

Lemma orderRules_sorted l : StronglySorted lePriority (orderRules l).
Proof.
  induction l as [|x l IH]; simpl; [constructor|]. by apply insertRule_sorted.
Qed.

(** Insertion keeps the rules of every priority in their order. *)
Lemma insertRule_stable n x l :
  filter (fun a : keyedRule => fst a = n) (insertRule x l)
  = filter (fun a : keyedRule => fst a = n) (x :: l).
Proof.
  induction l as [|y l IH]; [done|].
  cbn [insertRule]. unfold comparePriority.
  destruct (Z.leb_spec (fst x - fst y) 0) as [Hle|Hgt]; [done|].
  rewrite (filter_cons _ y), IH, !filter_cons.
  destruct (decide (fst y = n)), (decide (fst x = n)); try done. lia.
Qed.

Lemma orderRules_stable n l :
  filter (fun a : keyedRule => fst a = n) (orderRules l)
  = filter (fun a : keyedRule => fst a = n) l.
Proof.
  induction l as [|x l IH]; [done|].
  cbn [orderRules]. by rewrite insertRule_stable, !filter_cons, IH.
Qed.

(** A list of rules has one stable ascending arrangement: two sorted
    lists that agree on the rules of every priority, in order, are the
    same list. *)
Lemma stable_sorted_unique (l1 l2 : list keyedRule) :
  StronglySorted lePriority l1 →
  StronglySorted lePriority l2 →
  (∀ n, filter (fun a : keyedRule => fst a = n) l1
        = filter (fun a : keyedRule => fst a = n) l2) →
  l1 = l2.
Proof.
  intros H1. revert l2.
  induction H1 as [|x l1 Hl1 IH Hx]; intros l2 H2 Hsame.
  - destruct l2 as [|y l2]; [done|].
    specialize (Hsame (fst y)). rewrite filter_cons_True in Hsame by done.
    discriminate Hsame.
  - destruct H2 as [|y l2 Hl2 Hy].
    + specialize (Hsame (fst x)). rewrite filter_cons_True in Hsame by done.
      discriminate Hsame.
    + assert (Hxy : (fst x ≤ fst y)%Z).
      { pose proof (Hsame (fst y)) as Hs.
        rewrite (filter_cons_True _ y) in Hs by done.
        assert (Hin : y ∈ filter (fun a : keyedRule => fst a = fst y) (x :: l1))
          by (rewrite Hs; apply list_elem_of_here).
        apply list_elem_of_filter in Hin as [_ [->|Hin]%elem_of_cons]; [lia|].
        rewrite Forall_forall in Hx. by apply Hx. }
      assert (Hyx : (fst y ≤ fst x)%Z).
      { pose proof (Hsame (fst x)) as Hs.
        rewrite (filter_cons_True _ x) in Hs by done.
        assert (Hin : x ∈ filter (fun a : keyedRule => fst a = fst x) (y :: l2))
          by (rewrite <- Hs; apply list_elem_of_here).
        apply list_elem_of_filter in Hin as [_ [->|Hin]%elem_of_cons]; [lia|].
        rewrite Forall_forall in Hy. by apply Hy. }
      assert (Heq : fst x = fst y) by lia.
      pose proof (Hsame (fst x)) as Hhead.
      rewrite filter_cons_True in Hhead by done.
      rewrite (filter_cons_True _ y) in Hhead by done.
      injection Hhead as -> Htail. f_equal. apply IH; [done|].
      intros n. specialize (Hsame n). rewrite !filter_cons in Hsame.
      destruct (decide (fst y = n)) as [<-|_]; [exact Htail | exact Hsame].
Qed.

(** [orderRules] computes that arrangement. *)
Lemma orderRules_unique (l sorted : list keyedRule) :
  StronglySorted lePriority sorted →
  (∀ n, filter (fun a : keyedRule => fst a = n) sorted
        = filter (fun a : keyedRule => fst a = n) l) →
  sorted = orderRules l.
Proof.
  intros Hs Hst. apply stable_sorted_unique; [done | apply orderRules_sorted |].
  intros n. by rewrite orderRules_stable.
Qed.

End RuleFacts.

(** ** The security view *)

Module SecurityFacts.
Import Json Dashboard Samples RuleFacts PageFacts.

Ltac unfold_bind := unfold mbind, outcome_bind, mret, outcome_ret, bindOutcome.

(** A loop over a list returns when every round returns. *)
Lemma forEachOutcome_all {A B} (f : A → outcome B) (Q : A → B → Prop) l :
  (∀ a, a ∈ l → ∃ b, f a = Returns b ∧ Q a b) →
  ∃ bs, forEachOutcome f l = Returns bs ∧ Forall2 Q l bs.
Proof.
  induction l as [|a l IH]; intros Hall; simpl.
  - exists []. split; [done | constructor].
  - destruct (Hall a) as (b & Hb & HQ); [apply list_elem_of_here|].
    destruct IH as (bs & Hbs & HQs).
    { intros a' Ha'. apply Hall. by apply list_elem_of_further. }
    exists (b :: bs). unfold_bind. rewrite Hb, Hbs. split; [done | by constructor].
Qed.

Lemma keyRule_priorityOf rule n :
  priorityOf rule = Some n → keyRule rule = Returns (n, rule).
Proof.
  unfold priorityOf, keyRule. unfold_bind.
  destruct (rulePriority rule); [|done|done]. by intros [= ->].
Qed.

(** Pairing every rule with its priority. *)
Lemma keyRules_all rules :
  Forall (fun rule => is_Some (priorityOf rule)) rules →
  ∃ keyed, forEachOutcome keyRule rules = Returns keyed
           ∧ snd <$> keyed = rules
           ∧ Forall (fun k => priorityOf (snd k) = Some (fst k)) keyed.
Proof.
  intros Hall.
  destruct (forEachOutcome_all keyRule
              (fun rule k => snd k = rule ∧ priorityOf rule = Some (fst k)) rules)
    as (keyed & Hkeyed & HQ).
  { intros rule Hrule. rewrite Forall_forall in Hall.
    destruct (Hall rule Hrule) as [n Hn].
    exists (n, rule). split; [by apply keyRule_priorityOf | done]. }
  exists keyed. split; [done|]. clear Hkeyed Hall.
  induction HQ as [|rule k rules keyed [Hsnd Hprio] _ [IH1 IH2]]; [by split|].
  split; [rewrite fmap_cons; congruence|].
  constructor; [by rewrite Hsnd | done].
Qed.

Lemma nsgRules_ruleArray nsg explicit defaults :
  ruleArray "securityRules" nsg = Some explicit →
  ruleArray "defaultSecurityRules" nsg = Some defaults →
  nsgRules nsg = Returns (explicit ++ defaults).
Proof.
  unfold ruleArray, nsgRules.
  destruct (properties nsg) as [p|]; [|done].
  destruct p; try done;
    repeat match goal with
           | |- context [Json.orEmptyArray ?x] => destruct (Json.orEmptyArray x); try done
           end;
    by intros [= ->] [= ->].
Qed.

Lemma StronglySorted_with {A} (R : relation A) (P : A → Prop) l :
  StronglySorted R l → Forall P l →
  StronglySorted (fun a b => R a b ∧ P a ∧ P b) l.
Proof.
  induction 1 as [|a l Hl IH Ha]; intros HP; [constructor|].
  apply Forall_cons in HP as [HPa HPl].
  constructor; [by apply IH|].
  rewrite Forall_forall in Ha, HPl |- *. intros b Hb. auto.
Qed.

Lemma filter_priority_keyed n (keyed : list keyedRule) :
  Forall (fun k => priorityOf (snd k) = Some (fst k)) keyed →
  filter (fun rule => priorityOf rule = Some n) (snd <$> keyed)
  = snd <$> filter (fun k : keyedRule => fst k = n) keyed.
Proof.
  induction 1 as [|k keyed Hk _ IH]; [done|].
  rewrite fmap_cons, !filter_cons, IH.
  destruct (decide (priorityOf (snd k) = Some n)) as [Hn|Hn];
    destruct (decide (fst k = n)) as [Hf|Hf]; try done; exfalso.
  - apply Hf. rewrite Hk in Hn. by injection Hn.
  - apply Hn. by rewrite Hk, Hf.
Qed.

(** The card of a well-formed security group. *)
Lemma renderNsg_wellFormed nsg :
  wellFormedNsg nsg → ∃ card, renderNsg nsg = Returns card ∧ displayedAs nsg card.
Proof.
  intros (explicit & defaults & He & Hd & Hwf).
  apply Forall_and in Hwf as [Hprio Hrows].
  destruct (keyRules_all _ Hprio) as (keyed & Hkeyed & Hsnd & Hcons).
  assert (Hcons' : Forall (fun k => priorityOf (snd k) = Some (fst k)) (orderRules keyed))
    by (by rewrite orderRules_perm).
  destruct (forEachOutcome_all rowOutcome (fun _ _ => True) (snd <$> orderRules keyed))
    as (units & Hunits & _).
  { intros rule Hrule. exists tt. split; [|done].
    rewrite orderRules_perm, Hsnd in Hrule.
    rewrite Forall_forall in Hrows. by apply Hrows. }
  eexists. split.
  - unfold renderNsg. unfold_bind.
    rewrite (nsgRules_ruleArray nsg explicit defaults He Hd), Hkeyed, Hunits.
    reflexivity.
  - exists explicit, defaults. simpl. repeat split; try done.
    + by rewrite orderRules_perm, Hsnd.
    + unfold ascendingPriority.
      apply (StronglySorted_fmap snd
               (fun a b => lePriority a b
                           ∧ priorityOf (snd a) = Some (fst a)
                           ∧ priorityOf (snd b) = Some (fst b))).
      * intros a b (Hle & Ha & Hb). by exists (fst a), (fst b).
      * apply StronglySorted_with; [apply orderRules_sorted | done].
    + intros n. rewrite <- Hsnd.
      by rewrite !filter_priority_keyed, orderRules_stable.
Qed.

Lemma renderSecurityView_wellFormed resources :
  (∀ nsg, nsg ∈ resources → isNsg nsg = true → wellFormedNsg nsg) →
  ∃ cards, renderSecurityView resources = Returns cards
           ∧ Forall2 displayedAs (filter (fun r => isNsg r) resources) cards.
Proof.
  intros Hwf. unfold renderSecurityView. apply forEachOutcome_all.
  intros nsg [Hnsg Hin]%list_elem_of_filter.
  apply renderNsg_wellFormed, Hwf; [done|]. by apply Is_true_true.
Qed.

(** C4 on the generated page.  [renderSecurityView] lists the rules of
    the sample security group in ascending priority, the two rules of
    priority 100 in their input order, but the page never shows the
    list: for a filtered set that holds a security group
    [renderNetworkTopology] raises, because the script does not define
    [getIcon], and [applyFilters] ends before it calls
    [renderSecurityView].  The security view stays empty, without a
    filter and with the Network category selected. *)
Theorem security_rules_not_displayed :
  let d0 := initializeDashboard None by_type in
  let d := clickCard None "Network" d0 in
  let visible := filterResources (activeFilters d) (allResources d) in
  visible = [nic; nsg; nsgBare]
  ∧ renderSecurityView visible
    = Returns [ {| nsg_name := Some "nsg1"; nsg_group := Some "rg-app";
                   nsg_rules := [mkRule "ssh" 100; mkRule "vnet" 100;
                                 mkRule "lb" 200; mkRule "web" 300] |};
                {| nsg_name := Some "nsg2"; nsg_group := Some "rg-app";
                   nsg_rules := [] |} ]
  ∧ renderNetworkTopology None (resourceMap d) visible = Throws
  ∧ securityView d = Returns []
  ∧ securityView d0 = Returns [].
Proof. repeat split; vm_compute; reflexivity. Qed.

(** Priorities 300, 100, 100, 200 come out as 100, 100, 200, 300 with
    the two rules of priority 100 in their input order; no rules give no
    rows. *)
Example order_of_sample_rules :
  snd <$> orderRules [(300%Z, mkRule "web" 300); (100%Z, mkRule "ssh" 100);
                      (100%Z, mkRule "vnet" 100); (200%Z, mkRule "lb" 200)]
  = [mkRule "ssh" 100; mkRule "vnet" 100; mkRule "lb" 200; mkRule "web" 300]
  ∧ orderRules [] = []
  ∧ renderSecurityView [nsg; nsgBare]
    = Returns [ {| nsg_name := Some "nsg1"; nsg_group := Some "rg-app";
                   nsg_rules := [mkRule "ssh" 100; mkRule "vnet" 100;
                                 mkRule "lb" 200; mkRule "web" 300] |};
                {| nsg_name := Some "nsg2"; nsg_group := Some "rg-app";
                   nsg_rules := [] |} ].
Proof. repeat split; vm_compute; reflexivity. Qed.

(** Outside the well-formed inputs: a security group without properties
    makes the view throw, as does a rule whose [sourcePortRanges] is not
    a list; a priority that is not a number is not followed. *)
Example security_view_irregular_inputs :
  renderSecurityView [mkResource "/subscriptions/42/networkSecurityGroups/nsg3" "nsg3"
                        "Microsoft.Network/networkSecurityGroups" None] = Throws
  ∧ rowOutcome (JObj [("properties",
                       JObj [("priority", JNum 100); ("sourcePortRanges", JStr "80")])])
    = Throws
  ∧ rulePriority (JObj [("properties", JObj [("priority", JStr "100")])]) = NotModelled.
Proof. repeat split; reflexivity. Qed.

End SecurityFacts.

(** ** Filtered views *)

Module ViewFacts.
Import Str Json Dashboard JsonFacts IndexFacts GraphFacts EdgeFacts PageFacts Samples.

Section Projection.
Variable rs : list resource.
Variable P : resource → Prop.
Context `{!∀ r, Decision (P r)}.
Hypothesis Hunique : uniqueIds rs.

Let shown := filter P rs.

Lemma visible_by_id t : t ∈ rs → id t ∈ id <$> shown ↔ P t.
Proof.
  intros Ht. split.
  - intros (t' & Hid & [HP Hin]%list_elem_of_filter)%list_elem_of_fmap.
    assert (t = t') as ->; [|done].
    apply (NoDup_fmap_eq (fun r => toLowerCase (id r)) rs); auto.
    simpl. by rewrite Hid.
  - intros HP. apply list_elem_of_fmap. exists t. split; [done|].
    by apply list_elem_of_filter.
Qed.

Lemma visible_by_lower_id t : t ∈ rs → toLowerCase (id t) ∈ lowerIds shown ↔ P t.
Proof.
  intros Ht. rewrite elem_of_lowerIds. split.
  - intros (t' & [HP Hin]%list_elem_of_filter & Hid).
    assert (t = t') as ->; [|done].
    by apply (NoDup_fmap_eq (fun r => toLowerCase (id r)) rs).
  - intros HP. exists t. split; [|done]. by apply list_elem_of_filter.
Qed.

(** Scanning a visible resource under the filter emits the edges of the
    unfiltered scan whose two ends are visible. *)
Lemma scanString_visible r s :
  r ∈ rs → P r →
  scanString (buildResourceMap rs) (lowerIds shown) r s
  = filter (bothEndsIn shown) (scanString (buildResourceMap rs) (lowerIds rs) r s).
Proof.
  intros Hr HP. unfold scanString.
  destruct (startsWith (toLowerCase s) "/subscriptions/"); [|done].
  destruct (buildResourceMap rs !! toLowerCase s) as [t|] eqn:Ht; [|done].
  assert (Hall : toLowerCase s ∈ lowerIds rs)
    by (apply buildResourceMap_is_Some; by exists t).
  apply buildResourceMap_lookup in Ht as [Ht Hk].
  rewrite (bool_decide_eq_true_2 _ Hall).
  destruct (bool_decide (toLowerCase (id r) ≠ toLowerCase s));
    [|by destruct (bool_decide _)].
  rewrite (filter_singleton _ _ []).
  rewrite <- Hk.
  case_bool_decide as H1; case_decide as H2; try done; exfalso.
  - apply H2. split; simpl; apply visible_by_id; try done.
    by apply (visible_by_lower_id t Ht).
  - apply H1, (visible_by_lower_id t Ht).
    destruct H2 as [_ H2]. simpl in H2. by apply (visible_by_id t Ht) in H2.
Qed.

(** The edges of a hidden resource do not have both ends visible. *)
Lemma scanString_hidden r s :
  r ∈ rs → ¬ P r →
  filter (bothEndsIn shown) (scanString (buildResourceMap rs) (lowerIds rs) r s) = [].
Proof.
  intros Hr HP. apply filter_none.
  intros e (_ & t & _ & _ & _ & ->)%elem_of_scanString [Hfrom _].
  simpl in Hfrom. by apply (visible_by_id r Hr) in Hfrom.
Qed.

(** When both are rendered, the edges rendered for the visible
    resources are the edges of the whole graph between visible
    resources, in the same order. *)
Lemma projection_edges getIcon g gall :
  renderNetworkTopology getIcon (buildResourceMap rs) shown = Returns g →
  fullGraph getIcon rs = Returns gall →
  data_edges g = filter (bothEndsIn shown) (data_edges gall).
Proof.
  unfold fullGraph.
  intros ->%renderNetworkTopology_edges ->%renderNetworkTopology_edges.
  unfold shown at 2. rewrite flat_map_filter, filter_flat_map.
  apply flat_map_ext_Forall, Forall_forall. intros r Hr.
  rewrite filter_flat_map.
  destruct (decide (P r)) as [HP|HP].
  - apply flat_map_ext_Forall, Forall_forall. intros s _.
    by apply scanString_visible.
  - rewrite (flat_map_ext_Forall _ (fun _ => [])); [by rewrite flat_map_nil|].
    apply Forall_forall. intros s _. by apply scanString_hidden.
Qed.

End Projection.

Section Views.
Variable getIcon : option (string → string).


(** C8.  Clicking the card of a category sets the filter to it unless it
    is the active one, in which case the filter is cleared; so from the
    initial page, which has no filter, clicking the card of [c] twice
    leads back to the initial page, with the same views, and so it does
    from any page reached by clicks and resets once its filter is
    reset. *)
Theorem toggle_twice_restores by_type actions c :
  let d := run getIcon (initializeDashboard getIcon by_type) actions in
  let d0 := initializeDashboard getIcon by_type in
  activeFilters (clickCard getIcon c d)
  = (if bool_decide (activeFilters d = Some c) then None else Some c)
  ∧ activeFilters d0 = None
  ∧ activeFilters (clickCard getIcon c (clickCard getIcon c d0)) = None
  ∧ clickCard getIcon c (clickCard getIcon c d0) = d0
  ∧ views (clickCard getIcon c (clickCard getIcon c d0)) = views d0
  ∧ clickCard getIcon c (clickCard getIcon c (resetFilters getIcon d)) = d0.
Proof.
  intros d d0. split; [reflexivity|]. split; [reflexivity|].
  assert (Htwice : ∀ all,
    clickCard getIcon c (clickCard getIcon c (pageFor getIcon all None))
    = pageFor getIcon all None).
  { intros all. rewrite !clickCard_pageFor. simpl.
    by rewrite bool_decide_eq_true_2. }
  assert (Hback : clickCard getIcon c (clickCard getIcon c d0) = d0).
  { subst d0. rewrite initializeDashboard_pageFor. apply Htwice. }
  rewrite Hback. repeat split.
  subst d d0. rewrite initializeDashboard_pageFor, run_pageFor.
  change (resetFilters getIcon ?x) with (step getIcon x ResetFilters).
  rewrite step_pageFor. simpl. apply Htwice.
Qed.

End Views.


(** C6 on the generated page.  With the Compute category selected the
    filtered set holds the virtual machine, but the projection has no
    node: [renderNetworkTopology] raises for the filtered set, because
    the script does not define [getIcon], and the network view stays
    empty.  The same happens without a filter. *)
Theorem projection_not_drawn :
  let d0 := initializeDashboard None by_type in
  let d := clickCard None "Compute" d0 in
  let visible := filterResources (activeFilters d) (allResources d) in
  visible = [vm]
  ∧ renderNetworkTopology None (resourceMap d) visible = Throws
  ∧ topologyView d = noData
  ∧ renderNetworkTopology None (resourceMap d0) (allResources d0) = Throws
  ∧ topologyView d0 = noData.
Proof. repeat split; vm_compute; reflexivity. Qed.

(** The sample page with the Compute category selected: the cards keep
    the totals of the whole collection, the statistics count the one
    filtered resource. *)
Example filter_keeps_cards :
  let d0 := initializeDashboard None by_type in
  cardsView (clickCard None "Compute" d0)
  = [ {| card_category := "Compute"; card_count := 1 |};
      {| card_category := "Network"; card_count := 3 |};
      {| card_category := "Storage"; card_count := 1 |} ]
  ∧ statsView (clickCard None "Compute" d0)
    = {| totalResources := 1; resourceGroups := 1; locations := 1 |}.
Proof. repeat split; vm_compute; reflexivity. Qed.

(** When two ids differ in letter case only, the index keeps the later
    resource, and the scan of a filtered resource can emit an edge to it
    although only its namesake is in the filtered set. *)
Example colliding_ids_edge_to_hidden :
  let all := [gatewayUpper; gatewayLower; client] in
  let visible := filterResources (Some "Compute") all in
  visible = [gatewayUpper; client]
  ∧ scanProperties (buildResourceMap all) (lowerIds visible) client (properties client)
    = [ {| from := id client; to := id gatewayLower |} ]
  ∧ id gatewayLower ∉ id <$> visible.
Proof.
  split; [vm_compute; reflexivity|]. split; [vm_compute; reflexivity|].
  apply (bool_decide_unpack _). vm_compute. exact I.
Qed.

End ViewFacts.

(** ** More about the dashboard script *)

Module DashboardExtra.
Import Str Json Dashboard JsonFacts IndexFacts GraphFacts PageFacts Samples Highlight.

(** *** The identifier index *)

Lemma fold_insert_last rs (m : gmap string resource) k :
  fold_left (fun m r => <[toLowerCase (id r) := r]> m) rs m !! k
  = match last (filter (fun r => toLowerCase (id r) = k) rs) with
    | Some r => Some r
    | None => m !! k
    end.
Proof.
  revert m. induction rs as [|r rs IH]; intros m; [done|].
  cbn [fold_left]. rewrite IH, filter_cons.
  destruct (decide (toLowerCase (id r) = k)) as [Hk|Hk].
  - rewrite last_cons. destruct (last (filter _ rs)); [done|].
    by rewrite Hk, lookup_insert_eq.
  - destruct (last (filter _ rs)); [done|]. by rewrite lookup_insert_ne.
Qed.

(** The index is last-write-wins: looking a key up returns the last
    resource of the collection whose lower-cased id is the key, and
    nothing when there is none. *)
Theorem index_last_write_wins rs k :
  buildResourceMap rs !! k = last (filter (fun r => toLowerCase (id r) = k) rs).
Proof.
  unfold buildResourceMap. rewrite fold_insert_last.
  by destruct (last _).
Qed.

(** *** Repeating and resetting the filter *)

Section Pages.
Variable getIcon : option (string → string).

(** Rendering twice is rendering once, on any page: [applyFilters] is
    idempotent, whether it returns or raises. *)
Theorem applyFilters_idempotent d :
  applyFilters getIcon (applyFilters getIcon d) = applyFilters getIcon d.
Proof.
  unfold applyFilters.
  cbn [allResources resourceMap activeFilters cardsView topologyView securityView].
  rewrite renderDashboardView_again.
  by destruct (renderNetworkTopology getIcon _ _).
Qed.

(** The reset button leads from every page reached by clicks and resets
    back to the initial page. *)
Theorem reset_restores_initial_page by_type actions :
  resetFilters getIcon (run getIcon (initializeDashboard getIcon by_type) actions)
  = initializeDashboard getIcon by_type.
Proof.
  rewrite initializeDashboard_pageFor, run_pageFor.
  change (resetFilters getIcon ?x) with (step getIcon x ResetFilters).
  by rewrite step_pageFor.
Qed.

(** With a category selected, the filtered resources are the resources
    of that category, in their order. *)
Lemma filterResources_Some c rs :
  c ≠ "" → filterResources (Some c) rs = filter (fun r => category r = c) rs.
Proof.
  intros Hc. unfold filterResources. apply list_filter_iff. intros r. simpl.
  destruct (String.eqb_spec c "") as [?|_]; [done|].
  destruct (String.eqb_spec (category r) c); simpl; tauto.
Qed.

Lemma category_not_empty r : category r ≠ "".
Proof.
  intros Heq. pose proof (ClassifierFacts.getCategory_in_categories (type r)) as Hin.
  unfold category in Heq. rewrite Heq in Hin.
  revert Hin. apply (bool_decide_unpack _). vm_compute. exact I.
Qed.

(** The filter is single-select: clicking the card of a category that is
    not the active one makes it the only filter, whatever was selected
    before, and the table then lists the resources of that category and
    no others, in their original order. *)
Theorem click_selects_single_category by_type actions c :
  let d := run getIcon (initializeDashboard getIcon by_type) actions in
  activeFilters d ≠ Some c →
  c ≠ "" →
  activeFilters (clickCard getIcon c d) = Some c
  ∧ tableView (clickCard getIcon c d)
    = renderResourceExplorer (filter (fun r => category r = c) (loadResources by_type)).
Proof.
  intros d Hactive Hc. subst d. revert Hactive.
  rewrite initializeDashboard_pageFor, run_pageFor, clickCard_pageFor. simpl.
  intros Hactive. rewrite bool_decide_eq_false_2 by done. simpl.
  by rewrite filterResources_Some.
Qed.

(** Clicking a card that shows the count [n] leaves [n] resources in the
    statistics and [n] rows in the table, unless the card was the active
    one. *)
Theorem card_count_is_filtered_total by_type actions c n :
  let d := run getIcon (initializeDashboard getIcon by_type) actions in
  {| card_category := c; card_count := n |} ∈ cardsView d →
  activeFilters d ≠ Some c →
  totalResources (statsView (clickCard getIcon c d)) = n
  ∧ length (tableView (clickCard getIcon c d)) = n.
Proof.
  intros d. subst d.
  rewrite initializeDashboard_pageFor, run_pageFor, clickCard_pageFor. simpl.
  intros [-> Hpos]%(elem_of_cards (loadResources by_type) c n) Hactive.
  rewrite bool_decide_eq_false_2 by done. simpl.
  assert (Hc : c ≠ "").
  { apply countCategory_pos in Hpos as (r & _ & <-). apply category_not_empty. }
  rewrite filterResources_Some by done.
  unfold renderResourceExplorer. by rewrite length_fmap.
Qed.

Lemma length_remove_dups `{EqDecision A} (l : list A) :
  (length (remove_dups l) ≤ length l)%nat.
Proof.
  induction l as [|a l IH]; simpl; [lia|].
  destruct (decide_rel _ _ _); simpl; lia.
Qed.

(** On every reached page the views agree on how many resources are
    shown: the table has as many rows as the statistics count resources,
    and there are at most that many resource groups and locations. *)
Theorem table_and_stats_agree by_type actions :
  let d := run getIcon (initializeDashboard getIcon by_type) actions in
  length (tableView d) = totalResources (statsView d)
  ∧ (resourceGroups (statsView d) ≤ totalResources (statsView d))%nat
  ∧ (locations (statsView d) ≤ totalResources (statsView d))%nat
  ∧ (totalResources (statsView d) ≤ length (allResources d))%nat.
Proof.
  intros d. subst d. rewrite initializeDashboard_pageFor, run_pageFor. simpl.
  rewrite !size_list_to_set_remove_dups.
  unfold renderResourceExplorer. rewrite length_fmap.
  split; [done|].
  split; [etrans; [apply length_remove_dups|]; by rewrite length_fmap|].
  split; [etrans; [apply length_remove_dups|]; by rewrite length_fmap|].
  apply length_filter.
Qed.

End Pages.

(** *** Nodes and edges *)

Section Nodes.
Variable getIcon : option (string → string).
Variable M : gmap string resource.
Variable F : gset string.

Lemma fold_visit_nodes_inv rs t t' :
  foldOutcome (visitResource getIcon M F) rs t = Returns t' →
  (∀ x, x ∈ addedNodes t ↔ x ∈ node_id <$> nodes t) →
  NoDup (node_id <$> nodes t) →
  NoDup (node_id <$> nodes t')
  ∧ (∀ x, x ∈ node_id <$> nodes t' ↔ x ∈ node_id <$> nodes t ∨ x ∈ id <$> rs)
  ∧ (∀ n, n ∈ nodes t' →
          n ∈ nodes t ∨ ∃ r, r ∈ rs ∧ mkNode getIcon r = Returns n).
Proof.
  revert t. induction rs as [|r rs IH]; intros t; cbn [foldOutcome].
  - intros [= <-] _ Hnd. split; [done|]. split; [|by left].
    intros x. rewrite fmap_nil, elem_of_nil. tauto.
  - destruct (visitResource getIcon M F t r) as [t1| |] eqn:Hv; [|done..].
    intros Hfold Hadded Hnd.
    apply visitResource_Returns in Hv as [_ Hv].
    assert (Ht1 : (id r ∈ addedNodes t ∧ nodes t1 = nodes t
                   ∧ addedNodes t1 = addedNodes t)
                  ∨ ((id r ∉ addedNodes t)
                     ∧ ∃ n, mkNode getIcon r = Returns n ∧ node_id n = id r
                            ∧ nodes t1 = nodes t ++ [n]
                            ∧ addedNodes t1 = {[ id r ]} ∪ addedNodes t)).
    { destruct Hv as [?|(Hfresh & icon & Hicon & Hn & Ha)]; [by left|].
      right. split; [done|]. exists (nodeWith icon r).
      split; [|done]. unfold mkNode. by rewrite Hicon. }
    clear Hv.
    destruct (IH t1 Hfold) as (IHnd & IHids & IHnodes).
    + intros x.
      destruct Ht1 as [(_ & -> & ->)|(_ & n & _ & Hid & -> & ->)]; [apply Hadded|].
      rewrite fmap_app, elem_of_app, elem_of_union, elem_of_singleton, Hadded.
      simpl. rewrite list_elem_of_singleton, Hid. tauto.
    + destruct Ht1 as [(_ & -> & _)|(Hfresh & n & _ & Hid & -> & _)]; [done|].
      rewrite fmap_app. apply NoDup_app. split; [done|]. split.
      * intros x Hx Hx'. simpl in Hx'. apply list_elem_of_singleton in Hx'.
        subst x. rewrite Hid in Hx. by apply Hfresh, Hadded.
      * simpl. apply NoDup_singleton.
    + split; [done|]. split.
      * intros x. rewrite IHids, fmap_cons, elem_of_cons.
        destruct Ht1 as [(Hin & -> & _)|(_ & n & _ & Hid & -> & _)].
        -- apply Hadded in Hin. split; [tauto|]. intros [?|[->|?]]; auto.
        -- rewrite fmap_app, elem_of_app. simpl.
           rewrite list_elem_of_singleton, Hid. tauto.
      * intros n [Hn|(r' & Hr' & Hn)]%IHnodes.
        -- destruct Ht1 as [(_ & Heq & _)|(_ & n' & Hn' & _ & Heq & _)];
             rewrite Heq in Hn; [by left|].
           apply elem_of_app in Hn as [Hn|Hn]; [by left|].
           apply list_elem_of_singleton in Hn as ->.
           right. exists r. split; [apply list_elem_of_here | done].
        -- right. exists r'. split; [by apply list_elem_of_further | done].
Qed.

End Nodes.

(** [renderNetworkTopology] either hands over a graph without two nodes
    of the same id or raises, and it raises exactly when [getIcon] is
    not bound and there is a resource to draw.  When it returns, the
    node ids are the ids of the resources handed in, each once, every
    node is the node literal of one of these resources, and there are at
    most as many nodes as resources.  On the generated page, where
    [getIcon] is not bound, it returns for the empty collection only. *)
Theorem node_ids_distinct_or_raises getIcon M rs :
  match renderNetworkTopology getIcon M rs with
  | Returns g =>
      NoDup (node_id <$> data_nodes g)
      ∧ (∀ x, x ∈ node_id <$> data_nodes g ↔ x ∈ id <$> rs)
      ∧ (∀ n, n ∈ data_nodes g → ∃ r, r ∈ rs ∧ mkNode getIcon r = Returns n)
      ∧ (length (data_nodes g) ≤ length rs)%nat
  | Throws => getIcon = None ∧ rs ≠ []
  | NotModelled => False
  end
  ∧ renderNetworkTopology None M rs
    = match rs with [] => Returns noData | _ :: _ => Throws end.
Proof.
  split; [|apply renderNetworkTopology_unbound].
  destruct (renderNetworkTopology getIcon M rs) as [g| |] eqn:Hg.
  - unfold renderNetworkTopology in Hg.
    destruct (foldOutcome _ rs emptyTopology) as [t| |] eqn:Hf; [|done..].
    injection Hg as <-. cbn [data_nodes].
    destruct (fold_visit_nodes_inv getIcon M (lowerIds rs) rs emptyTopology t Hf)
      as (Hnd & Hids & Hnodes).
    { intros x. simpl. rewrite elem_of_empty, elem_of_nil. tauto. }
    { simpl. apply NoDup_nil_2. }
    assert (Hiff : ∀ x, x ∈ node_id <$> nodes t ↔ x ∈ id <$> rs).
    { intros x. rewrite Hids. simpl. rewrite elem_of_nil. tauto. }
    split; [done|]. split; [done|]. split.
    + intros n [Hn|?]%Hnodes; [|done]. simpl in Hn. by apply elem_of_nil in Hn.
    + rewrite <- (length_fmap node_id), <- (length_fmap id rs).
      apply submseteq_length, NoDup_submseteq; [done|]. intros x. apply Hiff.
  - by apply renderNetworkTopology_Throws in Hg.
  - by apply renderNetworkTopology_modelled in Hg.
Qed.

Lemma length_flat_map_le {A B} (f : A → list B) (l : list A) :
  (∀ a, length (f a) ≤ 1)%nat → (length (flat_map f l) ≤ length l)%nat.
Proof.
  intros Hf. induction l as [|a l IH]; simpl; [lia|].
  rewrite length_app. pose proof (Hf a). lia.
Qed.

(** No edge dangles: on every reached page each edge starts at a
    filtered resource and ends at a resource of the collection, and
    there are at most as many edges as the filtered resources have nested
    string leaves. *)
Theorem edges_join_listed_resources getIcon by_type actions :
  let d := run getIcon (initializeDashboard getIcon by_type) actions in
  let visible := filterResources (activeFilters d) (allResources d) in
  Forall (fun e => from e ∈ id <$> visible ∧ to e ∈ id <$> allResources d)
         (data_edges (topologyView d))
  ∧ (length (data_edges (topologyView d))
     ≤ length (flat_map (fun r => nestedLeaves (properties r)) visible))%nat.
Proof.
  intros d visible. subst visible d.
  rewrite initializeDashboard_pageFor, run_pageFor.
  unfold pageFor. cbn [activeFilters allResources topologyView]. split.
  - apply Forall_forall. intros e (r & s & Hr & Hs & He)%elem_of_drawn_edges.
    apply elem_of_scanString in He as (_ & t & Ht & _ & _ & ->). simpl.
    apply buildResourceMap_lookup in Ht as [Ht _].
    split; apply list_elem_of_fmap; eauto.
  - destruct (renderNetworkTopology getIcon _ _) as [g| |] eqn:Hg;
      [|simpl; lia..].
    cbn [drawn]. rewrite (renderNetworkTopology_edges _ _ _ _ Hg). clear Hg.
    generalize (buildResourceMap (loadResources by_type)).
    generalize (lowerIds (filterResources (fold_left nextFilter actions None)
                                          (loadResources by_type))).
    intros F M.
    induction (filterResources _ _) as [|r rs IH]; simpl; [lia|].
    rewrite !length_app. apply Nat.add_le_mono; [|exact IH].
    apply length_flat_map_le, scanString_length.
Qed.

(** *** Order of the input *)

Lemma buildResourceMap_Permutation rs rs' :
  rs ≡ₚ rs' → uniqueIds rs → buildResourceMap rs = buildResourceMap rs'.
Proof.
  intros Hperm Hu.
  assert (Hu' : uniqueIds rs') by (unfold uniqueIds in *; by rewrite <- Hperm).
  apply map_eq. intros k.
  destruct (buildResourceMap rs !! k) as [t|] eqn:Hk.
  - apply buildResourceMap_lookup in Hk as [Ht <-].
    symmetry. apply buildResourceMap_unique; [done|]. by rewrite <- Hperm.
  - symmetry. apply eq_None_not_Some. intros Hsome.
    apply buildResourceMap_is_Some, elem_of_lowerIds in Hsome as (r & Hr & Hid).
    rewrite <- Hperm in Hr.
    assert (Hs : is_Some (buildResourceMap rs !! k)).
    { apply buildResourceMap_is_Some, elem_of_lowerIds. eauto. }
    rewrite Hk in Hs. by destruct Hs.
Qed.

Lemma lowerIds_Permutation rs rs' : rs ≡ₚ rs' → lowerIds rs = lowerIds rs'.
Proof.
  intros Hperm. apply set_eq. intros k. rewrite !elem_of_lowerIds.
  by setoid_rewrite Hperm.
Qed.

(** With [getIcon] bound every node literal has a value. *)
Lemma forEach_mkNode_bound f (l : list resource) :
  forEachOutcome (mkNode (Some f)) l
  = Returns ((fun r => nodeWith (f (type r)) r) <$> l).
Proof.
  induction l as [|r l IH]; [done|]. cbn [forEachOutcome]. by rewrite IH.
Qed.

(** The built graph does not depend on the order of the input: for a
    collection with pairwise different ids, rearranging the resources
    rearranges the nodes and the edges and changes neither, and
    [renderNetworkTopology] raises for the one order exactly when it
    raises for the other. *)
Theorem graph_order_independent getIcon rs rs' :
  rs ≡ₚ rs' →
  uniqueIds rs →
  data_nodes (drawn (fullGraph getIcon rs)) ≡ₚ data_nodes (drawn (fullGraph getIcon rs'))
  ∧ data_edges (drawn (fullGraph getIcon rs)) ≡ₚ data_edges (drawn (fullGraph getIcon rs'))
  ∧ (fullGraph getIcon rs = Throws ↔ fullGraph getIcon rs' = Throws).
Proof.
  intros Hperm Hu.
  assert (Hu' : uniqueIds rs') by (unfold uniqueIds in *; by rewrite <- Hperm).
  unfold fullGraph. destruct getIcon as [f|].
  - destruct (renderNetworkTopology_bound f (buildResourceMap rs) rs) as [g Hg].
    destruct (renderNetworkTopology_bound f (buildResourceMap rs') rs') as [g' Hg'].
    rewrite Hg, Hg'. cbn [drawn]. split; [|split; [|done]].
    + pose proof (renderNetworkTopology_nodes _ _ _ _ Hg (uniqueIds_NoDup_ids _ Hu)) as Hn.
      pose proof (renderNetworkTopology_nodes _ _ _ _ Hg' (uniqueIds_NoDup_ids _ Hu')) as Hn'.
      rewrite forEach_mkNode_bound in Hn, Hn'.
      injection Hn as <-. injection Hn' as <-. by rewrite Hperm.
    + rewrite (renderNetworkTopology_edges _ _ _ _ Hg),
        (renderNetworkTopology_edges _ _ _ _ Hg').
      rewrite <- (buildResourceMap_Permutation rs rs' Hperm Hu).
      rewrite <- (lowerIds_Permutation rs rs' Hperm).
      by apply Permutation_flat_map.
  - rewrite !renderNetworkTopology_unbound.
    destruct rs as [|r rs], rs' as [|r' rs']; try done.
    + by apply Permutation_nil_cons in Hperm.
    + symmetry in Hperm. by apply Permutation_nil_cons in Hperm.
Qed.

(** *** Category cards *)



Lemma NoDup_sortedKeys (m : gmap string nat) : NoDup (sortedKeys m).
Proof. unfold sortedKeys. rewrite merge_sort_Permutation. apply NoDup_elements. Qed.

(** The cards rendered from a collection carry distinct categories, all
    among the eight the dashboard knows. *)
Lemma rendered_cards_categories rs :
  NoDup (card_category <$> renderDashboardView [] rs)
  ∧ Forall (fun c => card_category c ∈ categories) (renderDashboardView [] rs).
Proof.
  unfold renderDashboardView.
  rewrite <- list_fmap_compose, (list_fmap_id (sortedKeys _)).
  split; [apply NoDup_sortedKeys|].
  apply Forall_fmap, Forall_forall. intros c Hc. simpl.
  apply elem_of_sortedKeys in Hc. rewrite categoryCounts_lookup in Hc.
  destruct (decide (countCategory c rs = 0)%nat) as [|Hpos]; [by destruct Hc|].
  assert (Hpos' : (0 < countCategory c rs)%nat) by lia.
  apply countCategory_pos in Hpos' as (r & _ & <-).
  apply ClassifierFacts.getCategory_in_categories.
Qed.


(** *** The security view under a filter *)

Lemma isNsg_Network r : isNsg r = true → category r = "Network".
Proof.
  unfold isNsg, category. intros Heq%String.eqb_eq. by rewrite Heq.
Qed.

(** With a category other than Network selected the security view is
    empty, and it does not throw whatever the security groups of the
    collection look like: every security group is in the Network
    category. *)
Theorem security_view_empty_outside_network getIcon by_type actions c :
  let d := run getIcon (initializeDashboard getIcon by_type) actions in
  activeFilters d = Some c →
  c ≠ "" →
  c ≠ "Network" →
  securityView d = Returns [].
Proof.
  intros d. subst d. rewrite initializeDashboard_pageFor, run_pageFor.
  unfold pageFor. cbn [activeFilters securityView].
  intros -> Hc Hnet. rewrite filterResources_Some by done.
  destruct (renderNetworkTopology getIcon _ _); [|done..].
  unfold renderSecurityView.
  rewrite (EdgeFacts.filter_none (fun r => isNsg r)); [done|].
  intros r [Hcat _]%list_elem_of_filter Hnsg%Is_true_true.
  apply isNsg_Network in Hnsg. congruence.
Qed.

(** Selecting Network changes nothing in the security view: it is the
    one of the unfiltered page. *)
Theorem security_view_same_under_network getIcon by_type :
  let d0 := initializeDashboard getIcon by_type in
  securityView (clickCard getIcon "Network" d0) = securityView d0.
Proof.
  intros d0. subst d0. rewrite initializeDashboard_pageFor, clickCard_pageFor.
  unfold pageFor. cbn [activeFilters securityView nextFilter].
  rewrite bool_decide_eq_false_2 by done.
  rewrite filterResources_Some by done.
  destruct getIcon as [f|].
  - destruct (renderNetworkTopology_bound f (buildResourceMap (loadResources by_type))
                (filter (fun r => category r = "Network") (loadResources by_type)))
      as [g ->].
    destruct (renderNetworkTopology_bound f (buildResourceMap (loadResources by_type))
                (filterResources None (loadResources by_type))) as [g0 ->].
    unfold renderSecurityView, filterResources. f_equal.
    transitivity (filter (fun r => isNsg r) (loadResources by_type)).
    + apply list_filter_filter_l. intros r Hnsg. by apply isNsg_Network, Is_true_true.
    + symmetry. by apply list_filter_filter_l.
  - rewrite !renderNetworkTopology_unbound.
    destruct (filter (fun r => category r = "Network") (loadResources by_type));
      by destruct (filterResources None (loadResources by_type)).
Qed.

(** *** The selected card *)

Lemma length_filter_NoDup_fmap {A} (f : A → string) (a : string) (l : list A) :
  NoDup (f <$> l) → (length (filter (fun x => f x = a) l) ≤ 1)%nat.
Proof.
  induction l as [|x l IH]; [simpl; lia|].
  rewrite fmap_cons, NoDup_cons. intros [Hx Hnd]. rewrite filter_cons.
  destruct (decide (f x = a)) as [Hfx|_]; [|by apply IH].
  rewrite (EdgeFacts.filter_none (fun y => f y = a)); [simpl; lia|].
  intros y Hy Hfy. apply Hx. rewrite Hfx, <- Hfy. apply list_elem_of_fmap. eauto.
Qed.

(** When the active category is the one of a card, as it is after a
    click, the card marked as selected is the card of the active
    category and no other, so at most one card is marked; without a
    filter none is. *)
Theorem highlight_marks_active_card getIcon by_type actions :
  let d := run getIcon (initializeDashboard getIcon by_type) actions in
  let marks := highlightSelectedCard (activeFilters d) (cardsView d) in
  (∀ c, activeFilters d = Some c → c ∈ card_category <$> cardsView d) →
  (∀ c, (c, true) ∈ marks ↔ c ∈ cardsView d ∧ activeFilters d = Some (card_category c))
  ∧ (length (filter (fun m => snd m = true) marks) ≤ 1)%nat.
Proof.
  intros d marks Hclicked.
  assert (Hcards : cardsView d = renderDashboardView [] (loadResources by_type)).
  { subst d. by rewrite initializeDashboard_pageFor, run_pageFor. }
  destruct (rendered_cards_categories (loadResources by_type)) as [Hnd Hcats].
  rewrite <- Hcards in Hnd, Hcats.
  assert (Hsel : ∀ c, c ∈ cardsView d →
                      isSelected (activeFilters d) c = true
                      ↔ activeFilters d = Some (card_category c)).
  { intros c Hc. unfold isSelected.
    destruct (activeFilters d) as [a|] eqn:Ha; [|split; discriminate].
    assert (Ha' : a ∈ categories).
    { pose proof (Hclicked a eq_refl) as Hin.
      apply list_elem_of_fmap in Hin as (c' & -> & Hc').
      rewrite Forall_forall in Hcats. by apply Hcats. }
    assert (Hne : a ≠ "" ∧ a ≠ "service-card").
    { revert Ha'. generalize a. apply Forall_forall.
      apply (bool_decide_unpack _). vm_compute. exact I. }
    destruct Hne as [Hne1 Hne2].
    destruct (String.eqb_spec a "") as [?|_]; [done|].
    rewrite bool_decide_eq_true. unfold cardClasses.
    rewrite elem_of_cons, list_elem_of_singleton.
    split.
    - intros [Heq|Heq]; [done | by rewrite Heq].
    - intros [= Heq]. by right. }
  subst marks. unfold highlightSelectedCard. split.
  - intros c. rewrite list_elem_of_fmap. split.
    + intros (c' & [= <- Hb] & Hc'). split; [done|]. by apply Hsel.
    + intros [Hc Ha]. exists c. split; [|done]. f_equal. symmetry. by apply Hsel.
  - destruct (activeFilters d) as [a|] eqn:Ha.
    + etrans; [|apply (length_filter_NoDup_fmap card_category a (cardsView d) Hnd)].
      generalize Hsel. generalize (cardsView d). intros cards Hall.
      induction cards as [|c cards IH]; [done|].
      rewrite fmap_cons, !filter_cons. cbn [snd].
      assert (Hc := Hall c (list_elem_of_here _ _)).
      assert (IH' := IH (fun c' Hc' => Hall c' (list_elem_of_further _ _ _ Hc'))).
      destruct (decide (isSelected (Some a) c = true)) as [Hs|Hs];
        destruct (decide (card_category c = a)) as [Hk|Hk].
      * cbn [length]. by apply le_n_S.
      * exfalso. apply Hk. apply Hc in Hs. by injection Hs.
      * exfalso. apply Hs, Hc. by rewrite Hk.
      * exact IH'.
    + rewrite (EdgeFacts.filter_none (fun m : card * bool => snd m = true)); [simpl; lia|].
      intros m (c & -> & _)%list_elem_of_fmap. simpl. discriminate.
Qed.

(** *** The generated page *)

(** On the generated page, where [getIcon] is not bound, the network
    view and the security view never show anything: on every page
    reached by clicks and resets the network view has no node and no
    edge and the security view has no card, while the table lists the
    filtered resources.  [renderNetworkTopology] raises for every
    filtered set but the empty one, and [applyFilters] ends there. *)
Theorem generated_page_shows_no_graph by_type actions :
  let d := run None (initializeDashboard None by_type) actions in
  let visible := filterResources (activeFilters d) (allResources d) in
  topologyView d = noData
  ∧ securityView d = Returns []
  ∧ renderNetworkTopology None (resourceMap d) visible
    = match visible with [] => Returns noData | _ :: _ => Throws end
  ∧ tableView d = renderResourceExplorer visible.
Proof.
  intros d visible. subst visible d.
  rewrite initializeDashboard_pageFor, run_pageFor. unfold pageFor.
  cbn [topologyView securityView activeFilters allResources resourceMap tableView].
  rewrite renderNetworkTopology_unbound.
  by destruct (filterResources _ _).
Qed.

(** *** Instances on the sample page *)

Lemma click_selects_single_category_witness :
  let d := run None (initializeDashboard None by_type) [ClickCard "Compute"] in
  activeFilters (clickCard None "Network" d) = Some "Network"
  ∧ tableView (clickCard None "Network" d)
    = renderResourceExplorer
        (filter (fun r => category r = "Network") (loadResources by_type)).
Proof.
  apply (click_selects_single_category None by_type [ClickCard "Compute"] "Network").
  - vm_compute. discriminate.
  - discriminate.
Defined.

Lemma card_count_is_filtered_total_witness :
  let d := run None (initializeDashboard None by_type) [ClickCard "Compute"] in
  totalResources (statsView (clickCard None "Network" d)) = 3%nat
  ∧ length (tableView (clickCard None "Network" d)) = 3%nat.
Proof.
  apply (card_count_is_filtered_total None by_type [ClickCard "Compute"] "Network" 3).
  - vm_compute. in_list.
  - vm_compute. discriminate.
Defined.

Lemma graph_order_independent_witness :
  data_nodes (drawn (fullGraph None [vm; nic; disk]))
    ≡ₚ data_nodes (drawn (fullGraph None [disk; vm; nic]))
  ∧ data_edges (drawn (fullGraph None [vm; nic; disk]))
    ≡ₚ data_edges (drawn (fullGraph None [disk; vm; nic]))
  ∧ (fullGraph None [vm; nic; disk] = Throws ↔ fullGraph None [disk; vm; nic] = Throws).
Proof.
  apply (graph_order_independent None [vm; nic; disk] [disk; vm; nic]).
  - change [vm; nic; disk] with ([vm; nic] ++ [disk]).
    change [disk; vm; nic] with ([disk] ++ [vm; nic]).
    apply Permutation_app_comm.
  - unfold uniqueIds. apply (bool_decide_unpack _). vm_compute. exact I.
Defined.

Lemma security_view_empty_outside_network_witness :
  securityView (run None (initializeDashboard None by_type) [ClickCard "Storage"])
  = Returns [].
Proof.
  apply (security_view_empty_outside_network None by_type [ClickCard "Storage"] "Storage").
  - vm_compute. reflexivity.
  - discriminate.
  - discriminate.
Defined.

Lemma highlight_marks_active_card_witness :
  let d := run None (initializeDashboard None by_type) [ClickCard "Storage"] in
  let marks := highlightSelectedCard (activeFilters d) (cardsView d) in
  (∀ c, (c, true) ∈ marks ↔ c ∈ cardsView d ∧ activeFilters d = Some (card_category c))
  ∧ (length (filter (fun m => snd m = true) marks) ≤ 1)%nat.
Proof.
  apply (highlight_marks_active_card None by_type [ClickCard "Storage"]).
  intros c Hc. vm_compute in Hc. injection Hc as <-.
  apply (bool_decide_unpack _). vm_compute. exact I.
Defined.

End DashboardExtra.

(** ** More about the PNG generator *)

Module PngExtra.
Import Str Png PngDiagrams ClassifierFacts.

Section Buckets.
Context {R : Type}.

Lemma fold_extend_is_Some (items : list (string * list R)) (m : gmap string (list R)) c :
  (∀ k, k ∈ category_keys → is_Some (m !! k)) →
  is_Some (fold_left (fun categories item =>
                        extend (classify (fst item)) (snd item) categories)
                     items m !! c)
  ↔ is_Some (m !! c).
Proof.
  revert m. induction items as [|[t res] items IH]; intros m Hkeys; [done|].
  cbn [fold_left fst snd]. rewrite IH.
  - unfold extend. destruct (decide (classify t = c)) as [<-|Hne].
    + rewrite lookup_insert_eq. split; [intros _|by eexists].
      apply Hkeys, classify_in_keys.
    + by rewrite lookup_insert_ne.
  - intros k Hk. unfold extend.
    destruct (decide (classify t = k)) as [->|Hne].
    + rewrite lookup_insert_eq. by eexists.
    + rewrite lookup_insert_ne by done. by apply Hkeys.
Qed.

Lemma empty_categories_lookup c :
  @empty_categories R !! c = if decide (c ∈ category_keys) then Some [] else None.
Proof.
  unfold empty_categories. destruct (decide (c ∈ category_keys)) as [Hin|Hin].
  - apply elem_of_list_to_map_1.
    + apply (bool_decide_unpack _). vm_compute. exact I.
    + apply list_elem_of_fmap. eauto.
  - apply not_elem_of_list_to_map_1.
    intros (x & Hx & Hx')%list_elem_of_fmap.
    apply list_elem_of_fmap in Hx' as (k & -> & Hk). simpl in Hx. by subst.
Qed.

(** The result of [categorize_resources], key by key. *)
Lemma categorize_resources_lookup (by_type : option (list (string * list R))) c :
  categorize_resources by_type !! c
  = if decide (c ∈ category_keys) then Some (bucketOf c by_type) else None.
Proof.
  destruct by_type as [items|]; [|apply empty_categories_lookup].
  pose proof (categorize_resources_bucket items c) as Hbucket.
  assert (Hsome : is_Some (categorize_resources (Some items) !! c)
                  ↔ is_Some (@empty_categories R !! c)).
  { apply fold_extend_is_Some. intros k Hk.
    rewrite empty_categories_lookup, decide_True by done. by eexists. }
  rewrite empty_categories_lookup in Hsome. unfold bucketOf.
  destruct (decide (c ∈ category_keys)).
  - destruct Hsome as [_ [l Hl]]; [by eexists|].
    rewrite Hl in Hbucket |- *. simpl in Hbucket. by rewrite Hbucket.
  - apply eq_None_not_Some. intros Hs. apply Hsome in Hs. by destruct Hs.
Qed.

(** [categorize_resources] always returns the same ten keys; the bucket
    of a key holds the resources of the types classified under it, in
    the order of [by_type], and every bucket is empty when the export
    has no [by_type]. *)
Theorem categorize_resources_keys_and_buckets (by_type : option (list (string * list R))) :
  dom (categorize_resources by_type) = list_to_set category_keys
  ∧ (∀ c, c ∈ category_keys →
          categorize_resources by_type !! c
          = Some (match by_type with
                  | None => []
                  | Some items =>
                      flat_map snd (filter (fun item => classify (fst item) = c) items)
                  end)).
Proof.
  split.
  - apply set_eq. intros c.
    rewrite elem_of_dom, elem_of_list_to_set, categorize_resources_lookup.
    destruct (decide (c ∈ category_keys)); split; try done;
      first [by eexists | by intros [? ?]].
  - intros c Hc. by rewrite categorize_resources_lookup, decide_True.
Qed.

Lemma sum_select (ks : list string) c n :
  NoDup ks → c ∈ ks →
  sum_list_with (fun k => if decide (c = k) then n else 0)%nat ks = n.
Proof.
  induction ks as [|k ks IH]; intros Hnd Hc; [by apply elem_of_nil in Hc|].
  apply NoDup_cons in Hnd as [Hk Hnd]. cbn [sum_list_with].
  destruct (decide (c = k)) as [->|Hne].
  - assert (sum_list_with (fun k0 => if decide (k = k0) then n else 0)%nat ks = 0%nat)
      as ->; [|lia].
    clear IH Hnd Hc. induction ks as [|k' ks IH]; [done|]. cbn [sum_list_with].
    rewrite decide_False, IH; [done| |].
    + intros Hin. apply Hk. by apply list_elem_of_further.
    + intros ->. apply Hk. apply list_elem_of_here.
  - apply elem_of_cons in Hc as [?|Hc]; [done|]. by rewrite IH.
Qed.

(** The buckets partition the resources: their sizes add up to the
    number of resources of [by_type]. *)
Lemma sum_bucket_lengths (items : list (string * list R)) :
  sum_list_with (fun k => length (bucketOf k (Some items))) category_keys
  = length (flat_map snd items).
Proof.
  assert (Hnd : NoDup category_keys) by (apply (bool_decide_unpack _); vm_compute; exact I).
  revert Hnd. generalize (fun t => classify_in_keys t). generalize category_keys.
  intros ks Hin Hnd.
  induction items as [|[t res] items IH].
  - simpl. clear. induction ks as [|k ks IH]; [done|]. simpl. by rewrite IH.
  - assert (Hsplit :
      sum_list_with (fun k => length (bucketOf k (Some ((t, res) :: items)))) ks
      = (sum_list_with (fun k => if decide (classify t = k) then length res else 0) ks
         + sum_list_with (fun k => length (bucketOf k (Some items))) ks)%nat).
    { clear. induction ks as [|k ks IH]; [done|]. cbn [sum_list_with].
      rewrite IH. unfold bucketOf. rewrite filter_cons. cbn [fst].
      destruct (decide (classify t = k)); cbn [flat_map snd];
        rewrite ?length_app; lia. }
    rewrite Hsplit, (sum_select ks (classify t) (length res) Hnd (Hin t)), IH.
    cbn [flat_map snd]. by rewrite length_app.
Qed.

Lemma non_empty_categories_sizes (categories : gmap string (list R)) (ks : list string) :
  sum_list_with (fun kv => length (snd kv))
    (omap (fun k => match categories !! k with
                    | Some (r :: rs) => Some (k, r :: rs)
                    | _ => None
                    end) ks)
  = sum_list_with (fun k => length (default [] (categories !! k))) ks.
Proof.
  induction ks as [|k ks IH]; [done|]. cbn [omap list_omap sum_list_with].
  destruct (categories !! k) as [[|r rs]|];
    cbn [sum_list_with default snd length]; rewrite IH; reflexivity.
Qed.

(** The cost chart counts every resource once: when there is a chart,
    its sizes are positive and add up to the number of resources of
    [by_type]; there is no chart exactly when there is no resource. *)
Theorem chart_sizes_partition (by_type : option (list (string * list R))) :
  match chart_sizes by_type with
  | None => match by_type with None => True | Some items => flat_map snd items = [] end
  | Some sizes =>
      Forall (fun n => 0 < n)%nat sizes
      ∧ ∃ items, by_type = Some items
                 ∧ sum_list_with (fun n => n) sizes = length (flat_map snd items)
  end.
Proof.
  unfold chart_sizes.
  assert (Hsum : sum_list_with (fun kv => length (snd kv))
                   (non_empty_categories (categorize_resources by_type))
                 = sum_list_with (fun k => length (bucketOf k by_type)) category_keys).
  { unfold non_empty_categories. rewrite non_empty_categories_sizes.
    assert (Hgen : ∀ l, (∀ k, k ∈ l → k ∈ category_keys) →
      sum_list_with (fun k => length (default [] (categorize_resources by_type !! k))) l
      = sum_list_with (fun k => length (bucketOf k by_type)) l).
    { induction l as [|k l IH]; intros Hl; [done|]. cbn [sum_list_with].
      rewrite IH by (intros k' Hk'; by apply Hl, list_elem_of_further).
      rewrite categorize_resources_lookup, decide_True; [done|].
      apply Hl, list_elem_of_here. }
    by apply Hgen. }
  assert (Hpos : Forall (fun kv : string * list R => 0 < length (snd kv))%nat
                   (non_empty_categories (categorize_resources by_type))).
  { unfold non_empty_categories. apply Forall_forall. intros kv Hkv.
    apply list_elem_of_omap in Hkv as (k & _ & Hk).
    destruct (_ !! k) as [[|r rs]|]; try done. injection Hk as <-. simpl. lia. }
  destruct (non_empty_categories (categorize_resources by_type)) as [|kv rest] eqn:Hne.
  - cbn [sum_list_with] in Hsum. destruct by_type as [items|]; [|done].
    rewrite sum_bucket_lengths in Hsum.
    by apply length_zero_iff_nil.
  - split.
    + apply Forall_fmap. exact Hpos.
    + destruct by_type as [items|].
      * exists items. split; [done|].
        rewrite <- sum_bucket_lengths, <- Hsum.
        generalize (kv :: rest). clear. intros l.
        induction l as [|x l IH]; [done|]. rewrite fmap_cons. simpl. by rewrite IH.
      * exfalso.
        assert (Hzero : sum_list_with (fun k => length (@bucketOf R k None)) category_keys
                        = 0%nat) by reflexivity.
        rewrite Hzero in Hsum. cbn [sum_list_with] in Hsum.
        apply Forall_cons in Hpos as [Hpos _]. lia.
Qed.

(** A type classified as network has the network keyword, and a type
    with the network keyword is classified by the network rule or by one
    of the three rules declared before it. *)
Lemma classify_network t :
  (classify t = "network" → includes (toLowerCase t) "microsoft.network" = true)
  ∧ (includes (toLowerCase t) "microsoft.network" = true →
     classify t ∈ ["compute"; "storage"; "database"; "network"]).
Proof.
  unfold classify. rewrite classify_with_spec. unfold spec_classify, type_mapping.
  cbn [List.find snd fst].
  repeat match goal with
         | |- context [existsb ?f ?l] =>
             let H := fresh "Hk" in destruct (existsb f l) eqn:H; cbn [fst]
         end;
    split; try discriminate; intros Hn;
    try (by in_list);
    try (cbn [existsb] in *; rewrite ?orb_false_r in *; congruence).
Qed.

(** The network bucket of [categorize_resources] is a sublist of the
    [network_resources] that the network diagram collects. *)
Lemma network_bucket_collected (items : list (string * list R)) :
  default [] (categorize_resources (Some items) !! "network")
    `sublist_of` network_resources (Some items).
Proof.
  rewrite categorize_resources_bucket. unfold network_resources.
  induction items as [|[t res] items IH]; [done|].
  rewrite filter_cons. cbn [flat_map fst snd].
  destruct (decide (classify t = "network")) as [Hn|Hn].
  - apply classify_network in Hn. rewrite Hn. cbn [flat_map snd].
    by apply sublist_app.
  - destruct (includes _ _); [|exact IH].
    by apply sublist_inserts_l.
Qed.

End Buckets.

(** *** The grid of resource groups *)

(** The boxes of the resource groups do not collide: for [n > 0]
    resource groups there are at most three columns, the [i]-th box sits
    in a cell inside the grid, the cell determines [i], and the grid has
    the least number of rows that holds [n] boxes. *)
Theorem rg_grid_cells n i :
  (0 < n)%nat →
  (i < n)%nat →
  let (row, col) := rg_cell n i in
  (col < rg_cols n)%nat
  ∧ (rg_cols n ≤ 3)%nat
  ∧ (row < rg_rows n)%nat
  ∧ i = (row * rg_cols n + col)%nat
  ∧ ((rg_rows n - 1) * rg_cols n < n)%nat
  ∧ (n ≤ rg_rows n * rg_cols n)%nat
  ∧ ∀ j, rg_cell n j = rg_cell n i → j = i.
Proof.
  intros Hn Hi. unfold rg_cell, rg_rows.
  assert (Hc : (0 < rg_cols n)%nat) by (unfold rg_cols; lia).
  assert (Hc3 : (rg_cols n ≤ 3)%nat) by (unfold rg_cols; lia).
  assert (Hcn : (rg_cols n ≤ n)%nat) by (unfold rg_cols; lia).
  generalize dependent (rg_cols n). intros c Hc Hc3 Hcn.
  pose proof (Nat.div_mod_eq i c) as Hdiv.
  pose proof (Nat.mod_upper_bound i c ltac:(lia)) as Hmod.
  pose proof (Nat.div_mod_eq (n + c - 1) c) as Hdivn.
  pose proof (Nat.mod_upper_bound (n + c - 1) c ltac:(lia)) as Hmodn.
  split; [done|]. split; [done|].
  split; [|split; [lia|split; [nia|split; [nia|]]]].
  - apply Nat.Div0.div_lt_upper_bound. nia.
  - intros j [= Hq Hr].
    rewrite (Nat.div_mod_eq j c), Hq, Hr. lia.
Qed.

Lemma rg_grid_cells_witness :
  let (row, col) := rg_cell 7 5 in
  (col < rg_cols 7)%nat
  ∧ (rg_cols 7 ≤ 3)%nat
  ∧ (row < rg_rows 7)%nat
  ∧ 5%nat = (row * rg_cols 7 + col)%nat
  ∧ ((rg_rows 7 - 1) * rg_cols 7 < 7)%nat
  ∧ (7 ≤ rg_rows 7 * rg_cols 7)%nat
  ∧ ∀ j, rg_cell 7 j = rg_cell 7 5 → j = 5%nat.
Proof.
  apply (rg_grid_cells 7 5); lia.
Defined.

(** *** The export that is loaded *)

Lemma last_StronglySorted_max (l : list string) f :
  StronglySorted String.le l → last l = Some f → ∀ g, g ∈ l → String.le g f.
Proof.
  induction 1 as [|x l Hl IH Hx]; [done|].
  intros Hlast g Hg. destruct l as [|y l'].
  - injection Hlast as <-. apply list_elem_of_singleton in Hg as ->. reflexivity.
  - rewrite last_cons_cons in Hlast.
    apply elem_of_cons in Hg as [->|Hg]; [|by apply IH].
    rewrite Forall_forall in Hx. apply Hx.
    apply last_Some in Hlast as [l'' ->]. rewrite elem_of_app, list_elem_of_singleton. auto.
Qed.

(** [main] loads the export whose name is the greatest: there is no
    file exactly when no name of the listing looks like an export, and
    otherwise the chosen name is one of the listing, looks like an export
    and is not below any other such name. *)
Theorem latest_file_is_greatest listing :
  match latest_file listing with
  | None => ∀ f, f ∈ listing → isExportFile f = false
  | Some f => f ∈ listing ∧ isExportFile f = true
              ∧ ∀ g, g ∈ listing → isExportFile g = true → String.le g f
  end.
Proof.
  unfold latest_file.
  set (candidates := filter (fun f => isExportFile f) listing).
  assert (Hperm : merge_sort String.le candidates ≡ₚ candidates)
    by apply merge_sort_Permutation.
  assert (Hsorted : StronglySorted String.le (merge_sort String.le candidates))
    by apply (StronglySorted_merge_sort String.le).
  destruct (last (merge_sort String.le candidates)) as [f|] eqn:Hlast.
  - assert (Hf : f ∈ candidates).
    { rewrite <- Hperm. apply last_Some in Hlast as [l ->].
      rewrite elem_of_app, list_elem_of_singleton. auto. }
    apply list_elem_of_filter in Hf as [Hf Hin].
    split; [done|]. split; [by apply Is_true_true|].
    intros g Hg Hexp.
    apply (last_StronglySorted_max _ f Hsorted Hlast).
    rewrite Hperm. apply list_elem_of_filter. split; [by apply Is_true_true|done].
  - apply last_None in Hlast. rewrite Hlast in Hperm.
    apply Permutation_nil_l in Hperm.
    intros f Hf. destruct (isExportFile f) eqn:Hexp; [|done].
    assert (Hin : f ∈ candidates)
      by (apply list_elem_of_filter; split; [by apply Is_true_true|done]).
    rewrite <- Hperm in Hin. by apply elem_of_nil in Hin.
Qed.

(** The export names end in a time stamp, so the greatest name is the
    latest export; other files are ignored. *)
Example latest_file_sample :
  latest_file ["azure_architecture_export_20250820_112805.json";
               "azure_dashboard";
               "azure_architecture_export_20250901_080000.json";
               "azure_architecture_export_20250901_080000.json.bak";
               "azure_architecture_export_20241231_235959.json"]
  = Some "azure_architecture_export_20250901_080000.json"
  ∧ latest_file ["notes.json"; "azure_architecture_export_.txt"] = None.
Proof. split; vm_compute; reflexivity. Qed.

End PngExtra.

(** ** About the extractor *)

Module ExtractorExtra.
Import Str Extractor.

Section Grouping.
Context {R : Type}.

Lemma appendTo_keys k (r : R) d :
  fst <$> appendTo k r d
  = if decide (k ∈ fst <$> d) then fst <$> d else (fst <$> d) ++ [k].
Proof.
  induction d as [|[k' rs] d IH]; [done|].
  cbn [appendTo]. destruct (String.eqb_spec k' k) as [->|Hne].
  - rewrite decide_True by (rewrite fmap_cons; apply list_elem_of_here). done.
  - rewrite !fmap_cons, IH. cbn [fst].
    destruct (decide (k ∈ fst <$> d)) as [Hin|Hin].
    + by rewrite decide_True by (by apply list_elem_of_further).
    + rewrite decide_False; [done|].
      intros [?|?]%elem_of_cons; [by subst|done].
Qed.

Lemma appendTo_NoDup k (r : R) d : NoDup (fst <$> d) → NoDup (fst <$> appendTo k r d).
Proof.
  intros Hnd. rewrite appendTo_keys. destruct (decide _) as [|Hfresh]; [done|].
  apply NoDup_app. split; [done|]. split; [|apply NoDup_singleton].
  intros x Hx ->%list_elem_of_singleton. done.
Qed.

Lemma appendTo_elem k0 (r : R) d k rs :
  NoDup (fst <$> d) →
  (k, rs) ∈ appendTo k0 r d
  ↔ (k ≠ k0 ∧ (k, rs) ∈ d)
    ∨ (k = k0 ∧ ((∃ rs0, (k0, rs0) ∈ d ∧ rs = rs0 ++ [r])
                 ∨ ((k0 ∉ fst <$> d) ∧ rs = [r]))).
Proof.
  induction d as [|[k' rs'] d IH]; intros Hnd.
  - cbn [appendTo]. rewrite list_elem_of_singleton. split.
    + intros [= -> ->]. right. split; [done|]. right. split; [|done].
      apply not_elem_of_nil.
    + intros [[_ Hin]|[-> [(rs0 & Hin & _)|[_ ->]]]]; try (by apply elem_of_nil in Hin).
      done.
  - rewrite fmap_cons, NoDup_cons in Hnd. destruct Hnd as [Hk' Hnd]. cbn [fst] in Hk'.
    cbn [appendTo]. destruct (String.eqb_spec k' k0) as [->|Hne].
    + rewrite !elem_of_cons. split.
      * intros [[= -> ->]|Hin].
        -- right. split; [done|]. left. exists rs'. split; [by left|done].
        -- left. split; [|by right]. intros ->. apply Hk'.
           apply list_elem_of_fmap. by exists (k0, rs).
      * intros [[Hne [Heq|Hin]]|[-> [(rs0 & Hin0 & ->)|[Hfresh _]]]].
        -- congruence.
        -- by right.
        -- apply elem_of_cons in Hin0 as [Heq|Hin].
           ++ left. congruence.
           ++ exfalso. apply Hk'. apply list_elem_of_fmap. by exists (k0, rs0).
        -- exfalso. apply Hfresh. rewrite fmap_cons. apply list_elem_of_here.
    + rewrite !elem_of_cons, (IH Hnd). rewrite fmap_cons, elem_of_cons. cbn [fst].
      split.
      * intros [[= -> ->]|[[Hk Hin]|[-> [(rs0 & Hin & ->)|[Hfresh ->]]]]].
        -- left. split; [done|by left].
        -- left. split; [done|by right].
        -- right. split; [done|]. left. exists rs0. split; [by right|done].
        -- right. split; [done|]. right. split; [|done]. intros [?|?]; by subst.
      * intros [[Hk [Heq|Hin]]|[-> [(rs0 & Hin0 & ->)|[Hfresh ->]]]].
        -- by left.
        -- right. left. done.
        -- apply elem_of_cons in Hin0 as [Heq|Hin]; [congruence|].
           right. right. split; [done|]. left. by exists rs0.
        -- right. right. split; [done|]. right. split; [|done].
           intros Hin. apply Hfresh. by right.
Qed.

Lemma appendTo_flat_map k (r : R) d : flat_map snd (appendTo k r d) ≡ₚ flat_map snd d ++ [r].
Proof.
  induction d as [|[k' rs] d IH]; [done|].
  cbn [appendTo]. destruct (String.eqb k' k); cbn [flat_map snd].
  - rewrite <- !app_assoc. apply Permutation_app_head. apply Permutation_app_comm.
  - by rewrite IH, app_assoc.
Qed.

(** Grouping a list by a key, one resource after the other. *)
Lemma group_fold (key : R → string) (l : list R) :
  let d := fold_left (fun d r => appendTo (key r) r d) l [] in
  NoDup (fst <$> d)
  ∧ (∀ k rs, (k, rs) ∈ d ↔ rs = keyed key k l ∧ rs ≠ [])
  ∧ flat_map snd d ≡ₚ l.
Proof.
  induction l as [|r l IH] using rev_ind.
  - simpl. split; [apply NoDup_nil_2|]. split; [|done].
    intros k rs. rewrite elem_of_nil. unfold keyed. simpl. split; [done|].
    by intros [-> ?].
  - rewrite fold_left_app. cbn [fold_left].
    destruct IH as (Hnd & Helem & Hperm).
    set (d := fold_left (fun d r => appendTo (key r) r d) l []) in *.
    split; [by apply appendTo_NoDup|]. split.
    + intros k rs. rewrite (appendTo_elem _ _ _ _ _ Hnd).
      unfold keyed in *. rewrite filter_app, (filter_cons _ r), filter_nil.
      setoid_rewrite Helem.
      destruct (decide (key r = k)) as [Hk|Hk].
      * split.
        -- intros [[Hne _]|[_ [(rs0 & [-> _] & ->)|[Hfresh ->]]]]; [congruence| |].
           ++ rewrite Hk. split; [done|]. intros Heq. by apply app_eq_nil in Heq as [_ ?].
           ++ assert (Hnil : filter (fun r0 => key r0 = k) l = []).
              { destruct (filter (fun r0 => key r0 = k) l) as [|x xs] eqn:Hf; [done|].
                exfalso. apply Hfresh. apply list_elem_of_fmap.
                exists (key r, x :: xs). split; [done|]. apply Helem.
                rewrite Hk. by rewrite Hf. }
              rewrite Hnil. done.
        -- intros [-> _]. right. split; [done|].
           destruct (filter (fun r0 => key r0 = k) l) as [|x xs] eqn:Hf.
           ++ right. split; [|done].
              intros ([k' rs'] & Hk' & Hin)%list_elem_of_fmap. cbn [fst] in Hk'.
              apply Helem in Hin as [-> Hne]. apply Hne. by rewrite <- Hk', Hk, Hf.
           ++ left. exists (x :: xs). rewrite Hk. rewrite Hf. by split.
      * rewrite app_nil_r. split.
        -- intros [[_ ?]|[? _]]; [done|congruence].
        -- intros ?. left. split; [congruence|done].
    + rewrite appendTo_flat_map. by rewrite Hperm.
Qed.

Variable typeOf : R → option string.
Variable groupOf : R → option string.

Lemma fold_groupStep (l : list R) a b :
  fold_left (groupStep typeOf groupOf) l (a, b)
  = (fold_left (fun d r => appendTo (resource_type typeOf r) r d) l a,
     fold_left (fun d r => appendTo (resource_group groupOf r) r d) l b).
Proof.
  revert a b. induction l as [|r l IH]; intros a b; [done|].
  cbn [fold_left]. unfold groupStep at 2. cbn [fst snd]. apply IH.
Qed.

(** [get_all_resources] loses and repeats nothing: the keys of
    [by_type] are pairwise different, the entry of a type holds exactly
    the resources of that type (["Unknown"] for a resource without one)
    in their original order and is never empty, and all entries together
    are the resources that were listed; likewise for
    [by_resource_group]. *)
Theorem get_all_resources_groups (all_resources : list R) :
  let g := get_all_resources typeOf groupOf all_resources in
  all g = all_resources
  ∧ NoDup (fst <$> by_type g)
  ∧ (∀ k rs, (k, rs) ∈ by_type g
             ↔ rs = keyed (resource_type typeOf) k all_resources ∧ rs ≠ [])
  ∧ flat_map snd (by_type g) ≡ₚ all_resources
  ∧ NoDup (fst <$> by_resource_group g)
  ∧ (∀ k rs, (k, rs) ∈ by_resource_group g
             ↔ rs = keyed (resource_group groupOf) k all_resources ∧ rs ≠ [])
  ∧ flat_map snd (by_resource_group g) ≡ₚ all_resources.
Proof.
  intros g. subst g. unfold get_all_resources. rewrite fold_groupStep.
  cbn [by_type by_resource_group all fst snd].
  destruct (group_fold (resource_type typeOf) all_resources) as (H1 & H2 & H3).
  destruct (group_fold (resource_group groupOf) all_resources) as (H4 & H5 & H6).
  split; [done|]. split; [exact H1|]. split; [exact H2|]. split; [exact H3|].
  split; [exact H4|]. split; [exact H5|exact H6].
Qed.

End Grouping.

(** *** Architecture patterns *)

Section Patterns.
Context {R : Type}.

(** The [if]/[elif] chain is a first match over the keyword lists in
    their order. *)
Lemma pattern_of_first_match t :
  pattern_of t = fst <$> List.find (fun rule => mentions t (snd rule)) pattern_rules.
Proof.
  unfold pattern_of, pattern_rules. cbn [List.find snd].
  replace (includes (toLowerCase t) "storage") with (mentions t ["storage"])
    by (unfold mentions; simpl; apply orb_false_r).
  repeat match goal with
         | |- context [mentions t ?l] => destruct (mentions t l); [reflexivity|]
         end.
  reflexivity.
Qed.

Lemma pattern_of_in_keys t p : pattern_of t = Some p → p ∈ pattern_keys.
Proof.
  unfold pattern_of.
  repeat match goal with
         | |- context [if ?b then _ else _] => destruct b
         end;
    intros [= <-]; in_list.
Qed.

Lemma fold_patterns (items : list (string * list R)) (m : gmap string (list R)) p :
  (∀ k, k ∈ pattern_keys → is_Some (m !! k)) →
  is_Some (m !! p) →
  fold_left (fun patterns item =>
               match pattern_of (fst item) with
               | Some p => Png.extend p (snd item) patterns
               | None => patterns
               end) items m !! p
  = Some (default [] (m !! p)
          ++ flat_map snd (filter (fun item => pattern_of (fst item) = Some p) items)).
Proof.
  revert m. induction items as [|[t res] items IH]; intros m Hkeys [l Hl].
  - simpl. by rewrite Hl, app_nil_r.
  - cbn [fold_left fst snd]. rewrite filter_cons. cbn [fst].
    destruct (pattern_of t) as [q|] eqn:Hq.
    + assert (Hq' := pattern_of_in_keys t q Hq).
      rewrite IH.
      * unfold Png.extend. destruct (decide (Some q = Some p)) as [[= ->]|Hne].
        -- rewrite lookup_insert_eq. cbn [default from_option id flat_map snd].
           by rewrite <- app_assoc.
        -- rewrite lookup_insert_ne by congruence. done.
      * intros k Hk. unfold Png.extend. destruct (decide (q = k)) as [->|?].
        -- rewrite lookup_insert_eq. by eexists.
        -- rewrite lookup_insert_ne by done. by apply Hkeys.
      * unfold Png.extend. destruct (decide (q = p)) as [->|?].
        -- rewrite lookup_insert_eq. by eexists.
        -- rewrite lookup_insert_ne by done. by eexists.
    + rewrite decide_False by done. apply IH; [done | by eexists].
Qed.

(** [analyze_architecture_patterns] adds the resources of a type to one
    pattern at most: to the first of the eight keyword lists, in the
    order of the chain, one of whose keywords occurs in the lower-cased
    type.  There is no catch-all: a type without any keyword is added to
    no pattern. *)
Theorem patterns_first_match_without_catch_all (items : list (string * list R)) :
  (∀ t, pattern_of t
        = fst <$> List.find (fun rule => mentions t (snd rule)) pattern_rules)
  ∧ (∀ p, p ∈ pattern_keys →
          analyze_architecture_patterns (Some items) !! p
          = Some (flat_map snd (filter (fun item => pattern_of (fst item) = Some p) items)))
  ∧ (∀ item, item ∈ items →
             Forall (fun rule => mentions (fst item) (snd rule) = false) pattern_rules →
             ∀ p, item ∉ filter (fun item => pattern_of (fst item) = Some p) items).
Proof.
  split; [apply pattern_of_first_match|]. split.
  - intros p Hp. unfold analyze_architecture_patterns.
    assert (Hinit : ∀ k, k ∈ pattern_keys →
              (list_to_map ((fun k => (k, [])) <$> pattern_keys) : gmap string (list R)) !! k
              = Some []).
    { intros k Hk. apply elem_of_list_to_map_1.
      - apply (bool_decide_unpack _). vm_compute. exact I.
      - apply list_elem_of_fmap. eauto. }
    rewrite fold_patterns.
    + by rewrite Hinit.
    + intros k Hk. rewrite Hinit by done. by eexists.
    + rewrite Hinit by done. by eexists.
  - intros item Hitem Hnone p [Hp _]%list_elem_of_filter.
    rewrite pattern_of_first_match in Hp.
    destruct (List.find _ pattern_rules) as [rule|] eqn:Hfind; [|done].
    apply find_some in Hfind as [Hin Hm].
    rewrite Forall_forall in Hnone.
    rewrite Hnone in Hm by (by apply list_elem_of_In). done.
Qed.

End Patterns.

(** Types outside the keyword lists are dropped, and a keyword of an
    earlier list wins: application gateways count as web applications,
    not as networking. *)
Example pattern_samples :
  pattern_of "Microsoft.Network/applicationGateways" = Some "web_applications"
  ∧ pattern_of "Microsoft.Network/virtualNetworks" = Some "networking"
  ∧ pattern_of "Microsoft.Storage/storageAccounts" = Some "storage_accounts"
  ∧ pattern_of "Microsoft.Cdn/profiles" = None
  ∧ analyze_architecture_patterns
      (Some [("Microsoft.Cdn/profiles", [1; 2]); ("Microsoft.Sql/servers", [3])])
    !! "databases" = Some [3]
  ∧ @analyze_architecture_patterns nat None !! "databases" = Some [].
Proof. repeat split; vm_compute; reflexivity. Qed.

End ExtractorExtra.

(** ** The rows of the network diagram *)

Module NetworkDiagramExtra.
Import Str Png PngDiagrams Extractor NetworkDiagram.

Section Rows.
Context {R : Type}.
Variable typeOf : R → option string.

Lemma sum_lengths_flat_map (d : list (string * list R)) :
  sum_list_with (fun kv => length (snd kv)) d = length (flat_map snd d).
Proof.
  induction d as [|kv d IH]; [done|]. simpl. by rewrite length_app, IH.
Qed.

(** The network diagram draws at most five resources of a service type.
    When there are network resources, it has one row per service type
    that occurs among them; the header of a row counts the collected
    resources of that type, the boxes are the first five of them in
    their order, the note counts the rest, and the headers add up to the
    number of collected resources.  The network bucket of
    [categorize_resources] is a sublist of the collected resources, so
    a resource of the bucket is drawn only when it is among the first
    five of its service type. *)
Theorem network_rows_draw_first_five (items : list (string * list R)) :
  let collected := network_resources (Some items) in
  default [] (categorize_resources (Some items) !! "network") `sublist_of` collected
  ∧ match network_rows typeOf (Some items) with
    | None => collected = []
    | Some rows =>
        collected ≠ []
        ∧ NoDup (fst <$> rows)
        ∧ (∀ k row, (k, row) ∈ rows →
             let ofType := filter (fun r => service_type typeOf r = k) collected in
             ofType ≠ []
             ∧ header_count row = length ofType
             ∧ boxes row = take 5 ofType
             ∧ length (boxes row) = Nat.min 5 (length ofType)
             ∧ more row = (if bool_decide (5 < length ofType)%nat
                           then Some (length ofType - 5)%nat else None))
        ∧ (∀ r, r ∈ collected → ∃ row, (service_type typeOf r, row) ∈ rows)
        ∧ sum_list_with (fun kv => header_count (snd kv)) rows = length collected
    end.
Proof.
  intros collected. split; [apply PngExtra.network_bucket_collected|].
  unfold network_rows. fold collected.
  destruct collected as [|r0 rest] eqn:Hc; [done|]. rewrite <- Hc.
  assert (Hne : collected ≠ []) by (by rewrite Hc).
  clear Hc r0 rest.
  destruct (ExtractorExtra.group_fold (service_type typeOf) collected)
    as (Hnd & Helem & Hperm).
  fold (network_by_type typeOf collected) in Hnd, Helem, Hperm.
  set (d := network_by_type typeOf collected) in *.
  split; [done|]. split; [|split; [|split]].
  - rewrite <- list_fmap_compose.
    replace ((fst ∘ (fun kv : string * list R => (fst kv, drawRow (snd kv)))) <$> d)
      with (fst <$> d); [done|].
    by apply list_fmap_ext.
  - intros k row ([k' rs] & [= -> ->] & Hin)%list_elem_of_fmap.
    cbn [fst snd] in *. apply Helem in Hin as [-> Hrs].
    unfold keyed in *. cbn zeta. cbn [drawRow header_count boxes more].
    split; [done|]. split; [done|]. split; [done|]. split; [|done].
    rewrite length_take. lia.
  - intros r Hr.
    exists (drawRow (keyed (service_type typeOf) (service_type typeOf r) collected)).
    apply list_elem_of_fmap.
    exists (service_type typeOf r,
            keyed (service_type typeOf) (service_type typeOf r) collected).
    split; [done|]. apply Helem. split; [done|].
    intros Hnil.
    assert (Hin : r ∈ keyed (service_type typeOf) (service_type typeOf r) collected)
      by (by apply list_elem_of_filter).
    rewrite Hnil in Hin. by apply elem_of_nil in Hin.
  - rewrite <- (Permutation_length Hperm), <- sum_lengths_flat_map.
    clear. induction d as [|kv d IH]; [done|].
    rewrite fmap_cons. cbn [sum_list_with]. by rewrite IH.
Qed.

End Rows.

(** Six interfaces: the header says 6, five get a box, the note says 1;
    a type without ['/'] is its own service type. *)
Example network_rows_sample :
  network_rows (fun n : nat => Some "Microsoft.Network/networkInterfaces")
               (Some [("Microsoft.Network/networkInterfaces", [1; 2; 3; 4; 5; 6])])
  = Some [("networkInterfaces",
           {| header_count := 6; boxes := [1; 2; 3; 4; 5]; more := Some 1 |})]
  ∧ lastSegment "networkInterfaces" = "networkInterfaces"
  ∧ lastSegment "Microsoft.Network/" = ""
  ∧ network_rows (fun n : nat => None) (Some [("Microsoft.Compute/disks", [1])]) = None.
Proof. repeat split; vm_compute; reflexivity. Qed.

End NetworkDiagramExtra.
